(** * skew.arn: locator parsing, matching and enumeration

    A shallow embedding of [src/skew/arn/__init__.py] and of the properties
    stated about it.  Python values are modelled as follows.

    - [str] is [string]; a list of [str] is [list string].
    - A call that can raise returns a [Py.result]; the exception is a value.
    - A generator function returns a [generator]: the resumption of the
      generator object, that is the sequence of its yields, each with the
      content of the shared [context] list while the generator is suspended
      there, ended by its return or by the exception that leaves it.
    - The third-party modules [re] and [jmespath] and the modules
      [skew.resources] and [skew.config] are interfaces ([External],
      [Registry]); every statement holds for all their implementations
      unless it names a concrete one. *)

From Stdlib Require Import String Ascii List Bool Arith Lia.
Import ListNotations.

Local Open Scope string_scope.
Local Open Scope list_scope.

(** ** Python primitives *)

Module Py.

(** Exceptions that the modelled code can raise or let through. *)
Inductive exn : Type :=
| ReError                      (* re.error, from re.compile *)
| IndexError                   (* index out of range, pop from empty list *)
| ValueError                   (* wrong number of values to unpack *)
| TypeError                    (* calling an object that is not callable *)
| OtherError (name : string).  (* raised by an external collaborator *)

Inductive result (A : Type) : Type :=
| Ok (a : A)
| Raise (e : exn).

Arguments Ok {A} a.
Arguments Raise {A} e.

Definition bind {A B : Type} (c : result A) (k : A -> result B) : result B :=
  match c with
  | Ok a => k a
  | Raise e => Raise e
  end.

(** [[f(x) for x in l]]: evaluated left to right, the first exception wins. *)
Fixpoint map_result {A B : Type} (f : A -> result B) (l : list A)
  : result (list B) :=
  match l with
  | [] => Ok []
  | x :: l' =>
      match f x with
      | Raise e => Raise e
      | Ok y =>
          match map_result f l' with
          | Raise e => Raise e
          | Ok ys => Ok (y :: ys)
          end
      end
  end.

(** [l[i]] *)
Definition index {A : Type} (l : list A) (i : nat) : result A :=
  match nth_error l i with
  | Some x => Ok x
  | None => Raise IndexError
  end.

(** [c in s] for a one-character string [c]. *)
Fixpoint str_contains (c : ascii) (s : string) : bool :=
  match s with
  | EmptyString => false
  | String d s' => if Ascii.eqb d c then true else str_contains c s'
  end.

(** [s.split(sep, maxsplit)] for a one-character separator; [None] is the
    default [maxsplit = -1] (no limit). *)
Fixpoint str_split (sep : ascii) (maxsplit : option nat) (s : string)
  : list string :=
  match s with
  | EmptyString => [EmptyString]
  | String c s' =>
      if Ascii.eqb c sep then
        match maxsplit with
        | Some 0 => [s]
        | Some (S n) => EmptyString :: str_split sep (Some n) s'
        | None => EmptyString :: str_split sep None s'
        end
      else
        match str_split sep maxsplit s' with
        | [] => [String c EmptyString]
        | tok :: toks => String c tok :: toks
        end
  end.

(** [sep.join(l)] *)
Fixpoint str_join (sep : string) (l : list string) : string :=
  match l with
  | [] => EmptyString
  | x :: l' =>
      match l' with
      | [] => x
      | _ :: _ => (x ++ sep ++ str_join sep l')%string
      end
  end.

(** [itertools.zip_longest(la, lb, fillvalue=...)]: the one fill value is
    used on whichever side runs out; [fa] and [fb] are that value seen at
    the two element types. *)
Fixpoint zip_longest {A B : Type} (fa : A) (fb : B) (la : list A) (lb : list B)
  : list (A * B) :=
  match la with
  | [] => map (fun b => (fa, b)) lb
  | a :: la' =>
      match lb with
      | [] => (a, fb) :: map (fun a' => (a', fb)) la'
      | b :: lb' => (a, b) :: zip_longest fa fb la' lb'
      end
  end.

(** [l.pop()] seen as the list that is left. *)
Definition pop {A : Type} (l : list A) : result (list A) :=
  match l with
  | [] => Raise IndexError
  | _ :: _ => Ok (removelast l)
  end.

End Py.

Import Py.

Notation "x <- c ;; k" := (Py.bind c (fun x => k))
  (at level 61, c at next level, right associativity).

(** ** A regular-expression engine for a fragment of Python's [re]

    The fragment: literal characters, [.], the postfix operators [*], [+]
    and [?] (and their lazy forms, which accept the same strings), [|],
    groups [( )] and a backslash before a punctuation character.  A pattern
    that leaves a group open, closes one that is not open, repeats nothing,
    or ends in a backslash is rejected with [re.error], as in Python.
    Syntax outside the fragment (character sets, anchors, counted and
    possessive repetition, group extensions, letter escapes) is rejected
    with [OtherError]: the engine makes no statement about such patterns.
    It serves as the concrete [re] wherever a statement is evaluated. *)

Module Re.

Inductive re : Type :=
| Void                       (* matches nothing *)
| Eps                        (* matches the empty string *)
| Chr (c : ascii)
| AnyChr                     (* [.]: any character but a newline *)
| Cat (r1 r2 : re)
| Alt (r1 r2 : re)
| Star (r : re).

Fixpoint nullable (r : re) : bool :=
  match r with
  | Void => false
  | Eps => true
  | Chr _ => false
  | AnyChr => false
  | Cat r1 r2 => nullable r1 && nullable r2
  | Alt r1 r2 => nullable r1 || nullable r2
  | Star _ => true
  end.

(** Brzozowski derivative: the strings [w] such that [c w] matches [r]. *)
Fixpoint deriv (c : ascii) (r : re) : re :=
  match r with
  | Void => Void
  | Eps => Void
  | Chr d => if Ascii.eqb c d then Eps else Void
  | AnyChr => if Ascii.eqb c "010" then Void else Eps
  | Cat r1 r2 =>
      if nullable r1
      then Alt (Cat (deriv c r1) r2) (deriv c r2)
      else Cat (deriv c r1) r2
  | Alt r1 r2 => Alt (deriv c r1) (deriv c r2)
  | Star r1 => Cat (deriv c r1) (Star r1)
  end.

(** Some prefix of [s] matches [r]. *)
Fixpoint match_prefix (r : re) (s : string) : bool :=
  nullable r ||
  match s with
  | EmptyString => false
  | String c s' => match_prefix (deriv c r) s'
  end.

(** [regex.search(s)] is not [None]: some substring of [s] matches [r]. *)
Fixpoint search (r : re) (s : string) : bool :=
  match_prefix r s ||
  match s with
  | EmptyString => false
  | String _ s' => search r s'
  end.

(** The parser keeps, for every group that is open, the alternatives
    already closed by [|] and the atoms of the alternative being read
    (last atom first). *)
Record frame : Type := {
  alts : list re;
  atoms : list re
}.

Inductive last_atom : Type :=
| Fresh         (* an atom that a postfix operator can take *)
| Repeated      (* just repeated: the lazy mark [?] can follow *)
| Opened        (* just after [(]: [?] would start an extension *)
| Closed.       (* no postfix operator can follow *)

Definition cat_atoms (rev_atoms : list re) : re :=
  fold_left (fun acc a => Cat a acc) rev_atoms Eps.

Definition close_frame (f : frame) : re :=
  fold_left (fun acc a => Alt a acc) (alts f) (cat_atoms (atoms f)).

Definition is_punct (c : ascii) : bool :=
  let n := nat_of_ascii c in
  (((33 <=? n) && (n <=? 47)) || ((58 <=? n) && (n <=? 64)) ||
   ((91 <=? n) && (n <=? 96)) || ((123 <=? n) && (n <=? 126)))%nat.

Definition push_atom (a : re) (f : frame) : frame :=
  {| alts := alts f; atoms := a :: atoms f |}.

Definition unsupported : exn := OtherError "unsupported regular expression".

Fixpoint parse (s : string) (escaped : bool) (st : last_atom)
  (cur : frame) (stack : list frame) : result re :=
  match s with
  | EmptyString =>
      if escaped then Raise ReError
      else match stack with
           | [] => Ok (close_frame cur)
           | _ :: _ => Raise ReError
           end
  | String c s' =>
      if escaped then
        if is_punct c then parse s' false Fresh (push_atom (Chr c) cur) stack
        else Raise unsupported
      else
        match c with
        | "\"%char => parse s' true st cur stack
        | "."%char => parse s' false Fresh (push_atom AnyChr cur) stack
        | "("%char =>
            parse s' false Opened {| alts := []; atoms := [] |} (cur :: stack)
        | ")"%char =>
            match stack with
            | [] => Raise ReError
            | up :: stack' =>
                parse s' false Fresh (push_atom (close_frame cur) up) stack'
            end
        | "|"%char =>
            parse s' false Closed
              {| alts := cat_atoms (atoms cur) :: alts cur; atoms := [] |}
              stack
        | "*"%char =>
            match st, atoms cur with
            | Fresh, a :: rest =>
                parse s' false Repeated
                  {| alts := alts cur; atoms := Star a :: rest |} stack
            | _, _ => Raise ReError
            end
        | "+"%char =>
            match st, atoms cur with
            | Fresh, a :: rest =>
                parse s' false Repeated
                  {| alts := alts cur; atoms := Cat a (Star a) :: rest |} stack
            | Repeated, _ => Raise unsupported
            | _, _ => Raise ReError
            end
        | "?"%char =>
            match st, atoms cur with
            | Fresh, a :: rest =>
                parse s' false Repeated
                  {| alts := alts cur; atoms := Alt Eps a :: rest |} stack
            | Repeated, _ => parse s' false Closed cur stack
            | Opened, _ => Raise unsupported
            | _, _ => Raise ReError
            end
        | "["%char | "]"%char | "{"%char | "}"%char | "^"%char | "$"%char =>
            Raise unsupported
        | _ => parse s' false Fresh (push_atom (Chr c) cur) stack
        end
  end.

(** [re.compile(pattern)] *)
Definition compile (pattern : string) : result re :=
  parse pattern false Closed {| alts := []; atoms := [] |} [].

End Re.

(** ** External collaborators of the module *)

(** The third-party modules: [re] ([re.compile], [regex.search]),
    [jmespath] ([jmespath.compile]) and the opaque credentials handle. *)
Class External : Type := {
  regex : Type;
  re_compile : string -> result regex;
  re_search : regex -> string -> bool;
  jmespath_expr : Type;
  jmespath_compile : string -> result jmespath_expr;
  credentials : Type
}.

(** [re.compile('.*')] succeeds and the result finds a match in every
    string (the empty match at position 0). *)
Definition dotstar_matches_all {E : External} : Prop :=
  exists r, re_compile ".*" = Ok r /\ forall s, re_search r s = true.

(** ** Data model *)

(** [ARN.ComponentClasses] *)
Inductive ComponentClass : Type :=
| Scheme | Provider | Service | Region | Account | Resource.

(** An instance of a subclass of [ARNComponent].  The back-reference
    [_arn] is not stored: every method takes the owning [ARN].  Only
    [Account] instances have [_accounts] (the keys of the mapping read at
    construction, in its order); it is empty in the others. *)
Record ARNComponent : Type := {
  cls : ComponentClass;
  pattern : string;
  _accounts : list string
}.

(** A key handed to [dict.get]: a [str], or an [ARNComponent] instance.
    [ARNComponent] defines neither [__eq__] nor [__hash__], so an instance
    is equal to no string. *)
Inductive dict_key : Type :=
| KStr (s : string)
| KObj (c : ARNComponent).

(** [d.get(k, default)] for a dict whose keys are strings. *)
Definition dict_get {V : Type} (d : list (string * V)) (k : dict_key)
  (default : V) : V :=
  match k with
  | KStr s =>
      match find (fun kv => String.eqb (fst kv) s) d with
      | Some kv => snd kv
      | None => default
      end
  | KObj _ => default
  end.

(** The left elements that [zip_longest] pairs with the tokens: a class of
    [ComponentClasses], or the fill value, a [str]. *)
Inductive callee : Type :=
| Cls (c : ComponentClass)
| Str (s : string).

Definition ComponentClasses : list ComponentClass :=
  [Scheme; Provider; Service; Region; Account; Resource].

Definition _all_region_names : list string :=
  ["us-east-1"; "us-west-1"; "us-west-2"; "eu-west-1"; "eu-central-1";
   "ap-southeast-1"; "ap-southeast-2"; "ap-northeast-1"; "sa-east-1"].

Definition _region_names_limited : list string :=
  ["us-east-1"; "us-west-2"; "eu-west-1";
   "ap-southeast-1"; "ap-southeast-2"; "ap-northeast-1"].

Definition _no_region_required : list string := [""].

Definition _service_region_map : list (string * list string) :=
  [("redshift", _region_names_limited);
   ("glacier", _region_names_limited);
   ("kinesis", _region_names_limited);
   ("iam", _no_region_required);
   ("route53", _no_region_required);
   ("lambda", ["us-east-1"; "us-west-2"; "eu-west-1"; "ap-northeast-1"])].

(** [if context:] is false for [None] and for the empty list. *)
Definition truthy (context : option (list string)) : bool :=
  match context with
  | Some (_ :: _) => true
  | _ => false
  end.

(** [context[i]] *)
Definition context_at (context : option (list string)) (i : nat)
  : result string :=
  match context with
  | Some l => index l i
  | None => Raise TypeError
  end.

(** The part of [s] before the first [sep] and the part after it, when
    [sep] occurs: the reading of "split at" that [_split_resource] is
    compared with. *)
Fixpoint cut (sep : ascii) (s : string) : option (string * string) :=
  match s with
  | EmptyString => None
  | String c s' =>
      if Ascii.eqb c sep then Some (EmptyString, s')
      else match cut sep s' with
           | Some (a, b) => Some (String c a, b)
           | None => None
           end
  end.

(** Type and id of a resource pattern: at the first [/] if there is one,
    else at the first [:] if there is one, else the whole pattern is the
    type and there is no id. *)
Definition type_and_id (resource : string) : string * option string :=
  match cut "/" resource with
  | Some (t, i) => (t, Some i)
  | None =>
      match cut ":" resource with
      | Some (t, i) => (t, Some i)
      | None => (resource, None)
      end
  end.

(** [Resource._split_resource] *)
Definition _split_resource (resource : string)
  : result (string * option string) :=
  if str_contains "/" resource then
    match str_split "/" (Some 1) resource with
    | [resource_type; resource_id] => Ok (resource_type, Some resource_id)
    | _ => Raise ValueError
    end
  else if str_contains ":" resource then
    match str_split ":" (Some 1) resource with
    | [resource_type; resource_id] => Ok (resource_type, Some resource_id)
    | _ => Raise ValueError
    end
  else Ok (resource, None).

Section Locator.

Context {E : External}.

(** [ARN]: the attributes set by [__init__]. *)
Record ARN : Type := {
  query : option jmespath_expr;
  _components : list ARNComponent;
  aws_creds : option credentials
}.

(** [skew.resources] ([all_services], [all_types], [find_resource_class],
    the [enumerate] of a resource class) and [skew.config]
    ([get_config()['accounts']], its keys), which are not part of the
    module.  A resource class takes the owning locator, the region, the
    account, the resource id of the pattern and the credentials. *)
Class Registry : Type := {
  ResourceRecord : Type;
  resource_cls : Type;
  all_services : string -> list string;
  all_types : string -> string -> list string;
  find_resource_class : string -> result resource_cls;
  cls_enumerate :
    resource_cls -> ARN -> string -> string -> option string ->
    option credentials -> result (list ResourceRecord);
  config_accounts : list string
}.

Context {R : Registry}.

(** The properties [scheme], [provider], ..., [resource]. *)
Definition scheme (arn : ARN) : result ARNComponent :=
  index (_components arn) 0.
Definition provider (arn : ARN) : result ARNComponent :=
  index (_components arn) 1.
Definition service (arn : ARN) : result ARNComponent :=
  index (_components arn) 2.
Definition region (arn : ARN) : result ARNComponent :=
  index (_components arn) 3.
Definition account (arn : ARN) : result ARNComponent :=
  index (_components arn) 4.
Definition resource (arn : ARN) : result ARNComponent :=
  index (_components arn) 5.

(** *** [choices] *)

Definition Scheme_choices : result (list string) := Ok ["arn"].

Definition Provider_choices : result (list string) := Ok ["aws"].

Definition Service_choices (arn : ARN) (context : option (list string))
  : result (list string) :=
  provider <- (if truthy context then context_at context 1
               else p <- provider arn ;; Ok (pattern p)) ;;
  Ok (all_services provider).

Definition Region_choices (arn : ARN) (context : option (list string))
  : result (list string) :=
  service <- (if truthy context
              then s <- context_at context 2 ;; Ok (KStr s)
              else c <- service arn ;; Ok (KObj c)) ;;
  Ok (dict_get _service_region_map service _all_region_names).

Definition Account_choices (self : ARNComponent) : result (list string) :=
  Ok (_accounts self).

Definition Resource_choices (arn : ARN) (context : option (list string))
  : result (list string) :=
  service <- (if truthy context then context_at context 2
              else c <- service arn ;; Ok (pattern c)) ;;
  p <- provider arn ;;
  let all_resources := all_types (pattern p) service in
  Ok (match all_resources with
      | [] => ["*"]
      | _ :: _ => all_resources
      end).

(** [self.choices(context)]: the method of the class of [self]. *)
Definition choices (self : ARNComponent) (arn : ARN)
  (context : option (list string)) : result (list string) :=
  match cls self with
  | Scheme => Scheme_choices
  | Provider => Provider_choices
  | Service => Service_choices arn context
  | Region => Region_choices arn context
  | Account => Account_choices self
  | Resource => Resource_choices arn context
  end.

(** *** [match] and [matches] *)

(** The loop of [ARNComponent.match]; [matches] is the list built so far. *)
Fixpoint match_loop (regex0 : regex) (candidates matches : list string)
  : list string :=
  match candidates with
  | [] => matches
  | choice :: rest =>
      match_loop regex0 rest
        (if re_search regex0 choice then matches ++ [choice] else matches)
  end.

(** [ARNComponent.match]: the pattern is compiled before [choices] is
    called. *)
Definition ARNComponent_match (self : ARNComponent) (arn : ARN)
  (pattern0 : string) (context : option (list string))
  : result (list string) :=
  let regex0 := if String.eqb pattern0 "*" then ".*" else pattern0 in
  regex1 <- re_compile regex0 ;;
  candidates <- choices self arn context ;;
  Ok (match_loop regex1 candidates []).

(** [Resource.match] *)
Definition Resource_match (self : ARNComponent) (arn : ARN)
  (pattern0 : string) (context : option (list string))
  : result (list string) :=
  split <- _split_resource pattern0 ;;
  ARNComponent_match self arn (fst split) context.

(** [self.match(pattern, context)]: [Resource] overrides the method. *)
Definition component_match (self : ARNComponent) (arn : ARN)
  (pattern0 : string) (context : option (list string))
  : result (list string) :=
  match cls self with
  | Resource => Resource_match self arn pattern0 context
  | _ => ARNComponent_match self arn pattern0 context
  end.

(** [ARNComponent.matches] *)
Definition matches (self : ARNComponent) (arn : ARN)
  (context : option (list string)) : result (list string) :=
  component_match self arn (pattern self) context.

(** *** [Resource.enumerate] *)

(** Its loop over the matching resource types; [resources] is the list
    extended so far. *)
Fixpoint Resource_loop (arn : ARN)
  (provider0 service_name region0 account0 : string)
  (resource_id : option string) (creds : option credentials)
  (types : list string) (resources : list ResourceRecord)
  : result (list ResourceRecord) :=
  match types with
  | [] => Ok resources
  | resource_type :: rest =>
      let resource_path :=
        str_join "." [provider0; service_name; resource_type] in
      resource_cls0 <- find_resource_class resource_path ;;
      found <- cls_enumerate resource_cls0 arn region0 account0
                 resource_id creds ;;
      Resource_loop arn provider0 service_name region0 account0
        resource_id creds rest (resources ++ found)
  end.

Definition Resource_enumerate (self : ARNComponent) (arn : ARN)
  (context : list string) (creds : option credentials)
  : result (list ResourceRecord) :=
  match context with
  | [_; provider0; service_name; region0; account0] =>
      split <- _split_resource (pattern self) ;;
      types <- matches self arn (Some context) ;;
      Resource_loop arn provider0 service_name region0 account0
        (snd split) creds types []
  | _ => Raise ValueError
  end.

(** *** The generator levels *)

(** What a generator object does from its current point on: it yields [r]
    and is suspended with the shared list holding [context]; or it returns
    ([StopIteration]); or an exception leaves it.  In the last two cases
    [context] is what the shared list holds then. *)
Inductive generator : Type :=
| Yield (r : ResourceRecord) (context : list string) (rest : generator)
| Return (context : list string)
| Throw (e : exn) (context : list string).

(** Run [g]; when it returns, go on as [k] from the list it left. *)
Fixpoint gen_then (g : generator) (k : list string -> generator) : generator :=
  match g with
  | Yield r context rest => Yield r context (gen_then rest k)
  | Return context => k context
  | Throw e context => Throw e context
  end.

(** [for x in l: yield x] *)
Fixpoint yield_each (l : list ResourceRecord) (context : list string)
  : generator :=
  match l with
  | [] => Return context
  | x :: l' => Yield x context (yield_each l' context)
  end.

(** The loop that every generator level runs over its matches:
    [context.append(match)], re-yield what the next level yields,
    [context.pop()].  The source writes it out in each of the five
    classes; [next_level] is the call that differs.  The object that
    [self._arn.provider] (and so on) returns is an instance of the class
    at that position of [ComponentClasses], so the method called on it is
    that class's [enumerate]. *)
Fixpoint push_recurse_pop (next_level : list string -> generator)
  (matches0 : list string) (context : list string) : generator :=
  match matches0 with
  | [] => Return context
  | m :: rest =>
      gen_then (next_level (context ++ [m]))
        (fun context' =>
           match pop context' with
           | Raise e => Throw e context'
           | Ok context'' => push_recurse_pop next_level rest context''
           end)
  end.

(** [Account.enumerate]: the next level is [Resource.enumerate], which
    returns a list. *)
Definition Account_enumerate (self : ARNComponent) (arn : ARN)
  (context : list string) (creds : option credentials) : generator :=
  match matches self arn (Some context) with
  | Raise e => Throw e context
  | Ok ms =>
      push_recurse_pop
        (fun context1 =>
           match resource arn with
           | Raise e => Throw e context1
           | Ok next =>
               match Resource_enumerate next arn context1 creds with
               | Raise e => Throw e context1
               | Ok resources => yield_each resources context1
               end
           end)
        ms context
  end.

(** [Region.enumerate] *)
Definition Region_enumerate (self : ARNComponent) (arn : ARN)
  (context : list string) (creds : option credentials) : generator :=
  match matches self arn (Some context) with
  | Raise e => Throw e context
  | Ok ms =>
      push_recurse_pop
        (fun context1 =>
           match account arn with
           | Raise e => Throw e context1
           | Ok next => Account_enumerate next arn context1 creds
           end)
        ms context
  end.

(** [Service.enumerate] *)
Definition Service_enumerate (self : ARNComponent) (arn : ARN)
  (context : list string) (creds : option credentials) : generator :=
  match matches self arn (Some context) with
  | Raise e => Throw e context
  | Ok ms =>
      push_recurse_pop
        (fun context1 =>
           match region arn with
           | Raise e => Throw e context1
           | Ok next => Region_enumerate next arn context1 creds
           end)
        ms context
  end.

(** [Provider.enumerate] *)
Definition Provider_enumerate (self : ARNComponent) (arn : ARN)
  (context : list string) (creds : option credentials) : generator :=
  match matches self arn (Some context) with
  | Raise e => Throw e context
  | Ok ms =>
      push_recurse_pop
        (fun context1 =>
           match service arn with
           | Raise e => Throw e context1
           | Ok next => Service_enumerate next arn context1 creds
           end)
        ms context
  end.

(** [Scheme.enumerate] *)
Definition Scheme_enumerate (self : ARNComponent) (arn : ARN)
  (context : list string) (creds : option credentials) : generator :=
  match matches self arn (Some context) with
  | Raise e => Throw e context
  | Ok ms =>
      push_recurse_pop
        (fun context1 =>
           match provider arn with
           | Raise e => Throw e context1
           | Ok next => Provider_enumerate next arn context1 creds
           end)
        ms context
  end.

(** [ARN.__iter__]: a fresh, empty context. *)
Definition ARN_iter (arn : ARN) : generator :=
  match scheme arn with
  | Raise e => Throw e []
  | Ok first => Scheme_enumerate first arn [] (aws_creds arn)
  end.

(** *** The consumer's view of a generator *)

(** The items a consumer gets that pulls until the generator stops. *)
Fixpoint gen_items (g : generator) : list ResourceRecord :=
  match g with
  | Yield r _ rest => r :: gen_items rest
  | Return _ => []
  | Throw _ _ => []
  end.

(** How the generator ends for that consumer: [None] is a return. *)
Fixpoint gen_error (g : generator) : option exn :=
  match g with
  | Yield _ _ rest => gen_error rest
  | Return _ => None
  | Throw e _ => Some e
  end.

(** The shared list after the consumer has called [next] [pulls] times
    (fewer if the generator stopped before) and then dropped the generator.
    [context] is the list before the first call.  Dropping a suspended
    generator resumes none of its code: there is no [try]/[finally]. *)
Fixpoint context_after (pulls : nat) (g : generator) (context : list string)
  : list string :=
  match pulls with
  | 0 => context
  | S n =>
      match g with
      | Yield _ context' rest => context_after n rest context'
      | Return context' => context'
      | Throw _ context' => context'
      end
  end.

(** The shared list once the generator has returned, if it does. *)
Fixpoint context_at_return (g : generator) : option (list string) :=
  match g with
  | Yield _ _ rest => context_at_return rest
  | Return context => Some context
  | Throw _ _ => None
  end.

(** The generator, if it returns, leaves the shared list as [context]. *)
Definition restores (g : generator) (context : list string) : Prop :=
  match context_at_return g with
  | Some context' => context' = context
  | None => True
  end.

(** [P] holds of the shared list at every point where the generator is
    suspended at a [yield]. *)
Fixpoint suspended_all (P : list string -> Prop) (g : generator) : Prop :=
  match g with
  | Yield _ context rest => P context /\ suspended_all P rest
  | Return _ => True
  | Throw _ _ => True
  end.

(** Depth first, left to right: the records of the branch of the first
    match, in their order, then those of the next match, and so on until a
    branch raises.  The order that the levels' loops are compared with. *)
Fixpoint in_order (branch : string -> generator) (ms : list string)
  : list ResourceRecord :=
  match ms with
  | [] => []
  | m :: rest =>
      gen_items (branch m) ++
      match gen_error (branch m) with
      | None => in_order branch rest
      | Some _ => []
      end
  end.

(** *** Construction and printing *)

(** [c(n, self)] for an element [c] of the zipped pairs. *)
Definition instantiate (c : callee) (n : string) : result ARNComponent :=
  match c with
  | Cls k =>
      Ok {| cls := k;
            pattern := n;
            _accounts := match k with
                         | Account => config_accounts
                         | _ => []
                         end |}
  | Str _ => Raise TypeError
  end.

(** [ARN._build_components_from_string]: the new values of [query] and
    [_components]. *)
Definition _build_components_from_string (arn_string : string)
  : result (option jmespath_expr * list ARNComponent) :=
  parts <- (if str_contains "|" arn_string then
              match str_split "|" None arn_string with
              | [arn_string'; query0] =>
                  compiled <- jmespath_compile query0 ;;
                  Ok (arn_string', Some compiled)
              | _ => Raise ValueError
              end
            else Ok (arn_string, None)) ;;
  let pairs :=
    zip_longest (Str "*") "*" (map Cls ComponentClasses)
      (str_split ":" (Some 6) (fst parts)) in
  components <- map_result (fun cn => instantiate (fst cn) (snd cn)) pairs ;;
  Ok (snd parts, components).

(** [ARN.__init__] *)
Definition ARN_init (arn_string : string) (creds : option credentials)
  : result ARN :=
  built <- _build_components_from_string arn_string ;;
  Ok {| query := fst built; _components := snd built; aws_creds := creds |}.

(** [ARN.__repr__]; [str(c)] is [c.__repr__()], the pattern. *)
Definition ARN_repr (arn : ARN) : string :=
  str_join ":" (map pattern (_components arn)).

(** Left to right over the matching resource types: the records that
    [fetch] returns for the first type, then those of the next type, and
    so on; the error of the first type for which [fetch] raises.  The
    order that the loop of [Resource.enumerate] is compared with. *)
Fixpoint records_in_order (fetch : string -> result (list ResourceRecord))
  (types : list string) : result (list ResourceRecord) :=
  match types with
  | [] => Ok []
  | t :: rest =>
      found <- fetch t ;;
      later <- records_in_order fetch rest ;;
      Ok (found ++ later)
  end.

(** *** Methods outside the enumeration path *)

(** [ARNComponent.complete]; [c.startswith(prefix)] is [String.prefix]. *)
Definition complete (self : ARNComponent) (arn : ARN) (prefix0 : string)
  (context : option (list string)) : result (list string) :=
  candidates <- choices self arn context ;;
  Ok (filter (fun c => String.prefix prefix0 c) candidates).

(** The error of the first branch, in the order of the matches, that an
    exception leaves; [None] when every branch returns. *)
Fixpoint first_error (branch : string -> generator) (ms : list string)
  : option exn :=
  match ms with
  | [] => None
  | m :: rest =>
      match gen_error (branch m) with
      | Some e => Some e
      | None => first_error branch rest
      end
  end.

(** The component that [c(n, self)] builds for the class [k]. *)
Definition built (k : ComponentClass) (n : string) : ARNComponent :=
  {| cls := k;
     pattern := n;
     _accounts := match k with
                  | Account => config_accounts
                  | _ => []
                  end |}.

End Locator.

Arguments ARN E : clear implicits.
Arguments Registry E : clear implicits.

(** ** A concrete world

    [re] is the engine [Re]; the registry knows three services of the
    provider [aws].  [elb] has the resource type declared in
    [src/skew/resources/aws/elb.py]; [sns] lists a type, [topic], whose
    class cannot be resolved; the one configured account is
    [123456789012]. *)

Module Demo.

Definition external : External := {|
  regex := Re.re;
  re_compile := Re.compile;
  re_search := Re.search;
  jmespath_expr := string;
  jmespath_compile := fun q => Ok q;
  credentials := unit
|}.

Definition services (provider0 : string) : list string :=
  if String.eqb provider0 "aws" then ["ec2"; "elb"; "sns"] else [].

Definition types (provider0 service0 : string) : list string :=
  if String.eqb provider0 "aws" then
    if String.eqb service0 "ec2" then ["instance"]
    else if String.eqb service0 "elb" then ["loadbalancer"]
    else if String.eqb service0 "sns" then ["topic"; "subscription"]
    else []
  else [].

Definition find_class (resource_path : string) : result string :=
  if String.eqb resource_path "aws.ec2.instance" then Ok "Instance"
  else if String.eqb resource_path "aws.elb.loadbalancer" then Ok "LoadBalancer"
  else if String.eqb resource_path "aws.sns.subscription" then Ok "Subscription"
  else Raise (OtherError "KeyError").

(** One instance, two load balancers and one subscription in every region of
    every account; a record is printed as [class:region:account:name]. *)
Definition enumerate_class (class : string) (arn : ARN external)
  (region0 account0 : string) (resource_id : option string)
  (creds : option unit) : result (list string) :=
  let rec name :=
    (class ++ ":" ++ region0 ++ ":" ++ account0 ++ ":" ++ name)%string in
  if String.eqb class "Instance" then Ok [rec "i-1"]
  else if String.eqb class "LoadBalancer" then Ok [rec "lb-1"; rec "lb-2"]
  else if String.eqb class "Subscription" then Ok [rec "sub-1"]
  else Raise (OtherError "AttributeError").

Definition registry : Registry external := {|
  ResourceRecord := string;
  resource_cls := string;
  all_services := services;
  all_types := types;
  find_resource_class := find_class;
  cls_enumerate := enumerate_class;
  config_accounts := ["123456789012"]
|}.

(** [ARN(arn_string)] in this world. *)
Definition arn_of (arn_string : string) : result (ARN external) :=
  @ARN_init external registry arn_string None.

(** The locator built from [arn_string]; the locator without components
    stands for a construction that raised. *)
Definition locator (arn_string : string) : ARN external :=
  match arn_of arn_string with
  | Ok arn => arn
  | Raise _ => {| query := None; _components := []; aws_creds := None |}
  end.

(** [locator(arn_string)._components[i]] *)
Definition component (arn_string : string) (i : nat) : ARNComponent :=
  nth i (_components (locator arn_string))
    {| cls := Scheme; pattern := ""; _accounts := [] |}.

(** A registry in which [ec2] has three resource types, each with a class:
    one instance, two volumes and one snapshot in every region of every
    account. *)
Definition types_wide (provider0 service0 : string) : list string :=
  if String.eqb provider0 "aws" && String.eqb service0 "ec2"
  then ["instance"; "volume"; "snapshot"]
  else types provider0 service0.

Definition find_class_wide (resource_path : string) : result string :=
  if String.eqb resource_path "aws.ec2.volume" then Ok "Volume"
  else if String.eqb resource_path "aws.ec2.snapshot" then Ok "Snapshot"
  else find_class resource_path.

Definition enumerate_class_wide (class : string) (arn : ARN external)
  (region0 account0 : string) (resource_id : option string)
  (creds : option unit) : result (list string) :=
  let rec name :=
    (class ++ ":" ++ region0 ++ ":" ++ account0 ++ ":" ++ name)%string in
  if String.eqb class "Volume" then Ok [rec "vol-1"; rec "vol-2"]
  else if String.eqb class "Snapshot" then Ok [rec "snap-1"]
  else enumerate_class class arn region0 account0 resource_id creds.

Definition registry_wide : Registry external := {|
  ResourceRecord := string;
  resource_cls := string;
  all_services := services;
  all_types := types_wide;
  find_resource_class := find_class_wide;
  cls_enumerate := enumerate_class_wide;
  config_accounts := ["123456789012"]
|}.

(** The same registry while the volumes cannot be reached: the
    [enumerate] of their class raises. *)
Definition enumerate_class_offline (class : string) (arn : ARN external)
  (region0 account0 : string) (resource_id : option string)
  (creds : option unit) : result (list string) :=
  if String.eqb class "Volume"
  then Raise (OtherError "EndpointConnectionError")
  else enumerate_class_wide class arn region0 account0 resource_id creds.

Definition registry_offline : Registry external := {|
  ResourceRecord := string;
  resource_cls := string;
  all_services := services;
  all_types := types_wide;
  find_resource_class := find_class_wide;
  cls_enumerate := enumerate_class_offline;
  config_accounts := ["123456789012"]
|}.

End Demo.

(** * Properties *)

(** ** Strings *)

Lemma str_split_not_nil (sep : ascii) (m : option nat) (s : string) :
  str_split sep m s <> [].
Proof.
  revert m; induction s as [|c s IH]; intros m; simpl.
  - discriminate.
  - destruct (Ascii.eqb c sep).
    + destruct m as [[|n]|]; discriminate.
    + destruct (str_split sep m s); discriminate.
Qed.

(** Joining the tokens with the separator gives the string back, whatever
    the limit on the number of splits. *)
Lemma str_join_split (sep : ascii) (m : option nat) (s : string) :
  str_join (String sep EmptyString) (str_split sep m s) = s.
Proof.
  revert m; induction s as [|c s IH]; intros m; simpl.
  - reflexivity.
  - destruct (Ascii.eqb c sep) eqn:Hc.
    + apply Ascii.eqb_eq in Hc; subst c.
      destruct m as [[|n]|].
      * reflexivity.
      * specialize (IH (Some n)).
        destruct (str_split sep (Some n) s) as [|t ts] eqn:Hs.
        { exfalso; exact (str_split_not_nil _ _ _ Hs). }
        cbn [str_join]. cbn [str_join] in IH. rewrite IH. reflexivity.
      * specialize (IH None).
        destruct (str_split sep None s) as [|t ts] eqn:Hs.
        { exfalso; exact (str_split_not_nil _ _ _ Hs). }
        cbn [str_join]. cbn [str_join] in IH. rewrite IH. reflexivity.
    + specialize (IH m).
      destruct (str_split sep m s) as [|t ts] eqn:Hs.
      { exfalso; exact (str_split_not_nil _ _ _ Hs). }
      cbn [str_join] in *. destruct ts; simpl; rewrite <- IH; reflexivity.
Qed.

(** A limit that the unlimited split does not reach changes nothing. *)
Lemma str_split_limit_slack (sep : ascii) (n : nat) (s : string) :
  length (str_split sep None s) <= S n ->
  str_split sep (Some n) s = str_split sep None s.
Proof.
  revert n; induction s as [|c s IH]; intros n Hlen; simpl in *.
  - reflexivity.
  - destruct (Ascii.eqb c sep).
    + simpl in Hlen. destruct n as [|n].
      * pose proof (str_split_not_nil sep None s) as Hne.
        destruct (str_split sep None s); [congruence | simpl in Hlen; lia].
      * rewrite IH by lia. reflexivity.
    + assert (Hl : length (str_split sep None s) <= S n).
      { destruct (str_split sep None s); simpl in *; lia. }
      rewrite (IH n Hl). reflexivity.
Qed.

(** A limit of [n] splits gives [n + 1] tokens at most, and all the tokens
    when there are fewer. *)
Lemma str_split_length (sep : ascii) (n : nat) (s : string) :
  length (str_split sep (Some n) s) =
  Nat.min (S n) (length (str_split sep None s)).
Proof.
  revert n; induction s as [|c s IH]; intros n; simpl.
  - destruct n; reflexivity.
  - destruct (Ascii.eqb c sep).
    + destruct n as [|n]; simpl; [reflexivity|]. rewrite IH. reflexivity.
    + pose proof (str_split_not_nil sep (Some n) s) as H1.
      pose proof (str_split_not_nil sep None s) as H2.
      specialize (IH n).
      destruct (str_split sep (Some n) s); [congruence|].
      destruct (str_split sep None s); [congruence|].
      exact IH.
Qed.

(** With no split allowed the string is the one token. *)
Lemma str_split_zero (sep : ascii) (s : string) :
  str_split sep (Some 0) s = [s].
Proof.
  induction s as [|c s IH]; simpl.
  - reflexivity.
  - destruct (Ascii.eqb c sep); [reflexivity|]. rewrite IH. reflexivity.
Qed.

(** ** The result monad and lists *)

Lemma pop_snoc {A : Type} (l : list A) (x : A) : pop (l ++ [x]) = Ok l.
Proof.
  unfold pop. destruct (l ++ [x]) eqn:H.
  - destruct l; discriminate.
  - rewrite <- H, removelast_last. reflexivity.
Qed.

Lemma dict_get_present {V : Type} (d : list (string * V)) (k : string)
  (v default : V) :
  NoDup (map fst d) -> In (k, v) d -> dict_get d (KStr k) default = v.
Proof.
  unfold dict_get. induction d as [|[k0 v0] d IH]; simpl; intros Hnd Hin.
  - contradiction.
  - inversion Hnd as [|? ? Hnotin Hnd']; subst.
    destruct Hin as [Heq | Hin].
    + inversion Heq; subst. rewrite String.eqb_refl. reflexivity.
    + destruct (String.eqb k0 k) eqn:Hk.
      * apply String.eqb_eq in Hk; subst k0. exfalso. apply Hnotin.
        change k with (fst (k, v)). apply in_map. exact Hin.
      * apply IH; assumption.
Qed.

Lemma dict_get_absent {V : Type} (d : list (string * V)) (k : string)
  (default : V) :
  ~ In k (map fst d) -> dict_get d (KStr k) default = default.
Proof.
  unfold dict_get. induction d as [|[k0 v0] d IH]; simpl; intros Hnotin.
  - reflexivity.
  - destruct (String.eqb k0 k) eqn:Hk.
    + apply String.eqb_eq in Hk. exfalso. apply Hnotin. left. exact Hk.
    + apply IH. intros H. apply Hnotin. right. exact H.
Qed.

(** ** Generators *)

Section Generators.

Context {E : External} {R : Registry E}.

Lemma context_at_return_then (g : generator) (k : list string -> generator) :
  context_at_return (gen_then g k) =
  match context_at_return g with
  | Some context => context_at_return (k context)
  | None => None
  end.
Proof. induction g; simpl; auto. Qed.

Lemma gen_items_then (g : generator) (k : list string -> generator) :
  gen_items (gen_then g k) =
  gen_items g ++
  match context_at_return g with
  | Some context => gen_items (k context)
  | None => []
  end.
Proof.
  induction g as [r c g IH| |]; simpl.
  - rewrite IH. reflexivity.
  - reflexivity.
  - reflexivity.
Qed.

(** A generator returns exactly when no exception leaves it. *)
Lemma gen_error_return (g : generator) :
  gen_error g = None <-> context_at_return g <> None.
Proof.
  induction g as [r c g IH| |]; simpl.
  - exact IH.
  - split; [discriminate | reflexivity].
  - split; [discriminate | congruence].
Qed.

Lemma yield_each_return (l : list ResourceRecord) (context : list string) :
  context_at_return (yield_each l context) = Some context.
Proof. induction l; simpl; auto. Qed.

(** The loop of a level gives the list back as it found it, provided the
    next level does. *)
Lemma push_recurse_pop_restores (next_level : list string -> generator)
  (ms : list string) (context : list string) :
  (forall c, restores (next_level c) c) ->
  restores (push_recurse_pop next_level ms context) context.
Proof.
  intros Hnext. unfold restores.
  induction ms as [|m ms IH]; simpl.
  - reflexivity.
  - rewrite context_at_return_then.
    specialize (Hnext (context ++ [m])). unfold restores in Hnext.
    destruct (context_at_return (next_level (context ++ [m]))) as [c|];
      [|exact I].
    subst c. rewrite pop_snoc. exact IH.
Qed.

(** The items of a level's loop: those of the first match, then, if the
    first match's branch returned, those of the remaining matches. *)
Lemma push_recurse_pop_items (next_level : list string -> generator)
  (m : string) (ms : list string) (context : list string) :
  (forall c, restores (next_level c) c) ->
  gen_items (push_recurse_pop next_level (m :: ms) context) =
  gen_items (next_level (context ++ [m])) ++
  match gen_error (next_level (context ++ [m])) with
  | None => gen_items (push_recurse_pop next_level ms context)
  | Some _ => []
  end.
Proof.
  intros Hnext. simpl. rewrite gen_items_then. f_equal.
  specialize (Hnext (context ++ [m])). unfold restores in Hnext.
  pose proof (gen_error_return (next_level (context ++ [m]))) as Herr.
  destruct (context_at_return (next_level (context ++ [m]))) as [c|].
  - subst c. rewrite pop_snoc.
    destruct (gen_error (next_level (context ++ [m]))); [|reflexivity].
    exfalso. destruct Herr as [_ Herr]. discriminate Herr. discriminate.
  - destruct (gen_error (next_level (context ++ [m]))); [reflexivity|].
    exfalso. destruct Herr as [Herr _]. apply Herr; reflexivity.
Qed.

Lemma push_recurse_pop_error (next_level : list string -> generator)
  (m : string) (ms : list string) (context : list string) :
  (forall c, restores (next_level c) c) ->
  gen_error (push_recurse_pop next_level (m :: ms) context) =
  match gen_error (next_level (context ++ [m])) with
  | None => gen_error (push_recurse_pop next_level ms context)
  | Some e => Some e
  end.
Proof.
  intros Hnext. simpl.
  specialize (Hnext (context ++ [m])). unfold restores in Hnext.
  induction (next_level (context ++ [m])) as [r c g IH| c |e c]; simpl in *.
  - exact (IH Hnext).
  - subst c. rewrite pop_snoc. reflexivity.
  - reflexivity.
Qed.

Lemma suspended_all_then (P : list string -> Prop) (g : generator)
  (k : list string -> generator) :
  suspended_all P g ->
  (forall c, context_at_return g = Some c -> suspended_all P (k c)) ->
  suspended_all P (gen_then g k).
Proof.
  induction g as [r c g IH| c |e c]; simpl; intros Hg Hk.
  - destruct Hg as [Hc Hg]. split; [exact Hc | exact (IH Hg Hk)].
  - apply Hk. reflexivity.
  - exact I.
Qed.

Lemma suspended_all_impl (P Q : list string -> Prop) (g : generator) :
  (forall c, P c -> Q c) -> suspended_all P g -> suspended_all Q g.
Proof.
  intros HPQ. induction g as [r c g IH| c |e c]; simpl; auto.
  intros [Hc Hg]. split; auto.
Qed.

Lemma yield_each_suspended (l : list ResourceRecord) (context : list string) :
  suspended_all (fun c => length context <= length c) (yield_each l context).
Proof. induction l; simpl; auto. Qed.

(** While a level's loop is suspended, the list is longer than the loop
    found it: the match of the branch in progress is on it. *)
Lemma push_recurse_pop_suspended (next_level : list string -> generator)
  (ms : list string) (context : list string) :
  (forall c, restores (next_level c) c) ->
  (forall c, suspended_all (fun c' => length c <= length c') (next_level c)) ->
  suspended_all (fun c' => length context < length c')
    (push_recurse_pop next_level ms context).
Proof.
  intros Hret Hsus. induction ms as [|m ms IH]; simpl.
  - exact I.
  - apply suspended_all_then.
    + apply (suspended_all_impl
               (fun c' => length (context ++ [m]) <= length c')).
      * intros c Hc. rewrite length_app in Hc. simpl in Hc. lia.
      * apply Hsus.
    + intros c Hc. specialize (Hret (context ++ [m])).
      unfold restores in Hret. rewrite Hc in Hret. subst c.
      rewrite pop_snoc. exact IH.
Qed.

(** After [pulls] calls of [next] that each got an item, the generator is
    suspended, and what holds at every suspension holds of the list. *)
Lemma context_after_suspended (P : list string -> Prop) (g : generator)
  (pulls : nat) (context : list string) :
  suspended_all P g ->
  1 <= pulls <= length (gen_items g) ->
  P (context_after pulls g context).
Proof.
  revert g context. induction pulls as [|n IH]; intros g context Hg Hn.
  - lia.
  - destruct g as [r c g| c |e c]; simpl in Hn; try lia.
    destruct Hg as [Hc Hg]. destruct n as [|n].
    + exact Hc.
    + apply (IH g c); [exact Hg | lia].
Qed.

Lemma Account_enumerate_restores (self : ARNComponent) (arn : ARN E)
  (context : list string) (creds : option credentials) :
  restores (Account_enumerate self arn context creds) context.
Proof.
  unfold Account_enumerate.
  destruct (matches self arn (Some context)) as [ms|e]; [|exact I].
  apply push_recurse_pop_restores. intros c. unfold restores.
  destruct (resource arn) as [next|e]; [|exact I].
  destruct (Resource_enumerate next arn c creds) as [rs|e]; [|exact I].
  rewrite yield_each_return. reflexivity.
Qed.

Lemma Region_enumerate_restores (self : ARNComponent) (arn : ARN E)
  (context : list string) (creds : option credentials) :
  restores (Region_enumerate self arn context creds) context.
Proof.
  unfold Region_enumerate.
  destruct (matches self arn (Some context)) as [ms|e]; [|exact I].
  apply push_recurse_pop_restores. intros c.
  destruct (account arn) as [next|e]; [|exact I].
  apply Account_enumerate_restores.
Qed.

Lemma Service_enumerate_restores (self : ARNComponent) (arn : ARN E)
  (context : list string) (creds : option credentials) :
  restores (Service_enumerate self arn context creds) context.
Proof.
  unfold Service_enumerate.
  destruct (matches self arn (Some context)) as [ms|e]; [|exact I].
  apply push_recurse_pop_restores. intros c.
  destruct (region arn) as [next|e]; [|exact I].
  apply Region_enumerate_restores.
Qed.

Lemma Provider_enumerate_restores (self : ARNComponent) (arn : ARN E)
  (context : list string) (creds : option credentials) :
  restores (Provider_enumerate self arn context creds) context.
Proof.
  unfold Provider_enumerate.
  destruct (matches self arn (Some context)) as [ms|e]; [|exact I].
  apply push_recurse_pop_restores. intros c.
  destruct (service arn) as [next|e]; [|exact I].
  apply Service_enumerate_restores.
Qed.

Lemma Scheme_enumerate_restores (self : ARNComponent) (arn : ARN E)
  (context : list string) (creds : option credentials) :
  restores (Scheme_enumerate self arn context creds) context.
Proof.
  unfold Scheme_enumerate.
  destruct (matches self arn (Some context)) as [ms|e]; [|exact I].
  apply push_recurse_pop_restores. intros c.
  destruct (provider arn) as [next|e]; [|exact I].
  apply Provider_enumerate_restores.
Qed.

Lemma Account_enumerate_suspended (self : ARNComponent) (arn : ARN E)
  (context : list string) (creds : option credentials) :
  suspended_all (fun c => length context < length c)
    (Account_enumerate self arn context creds).
Proof.
  unfold Account_enumerate.
  destruct (matches self arn (Some context)) as [ms|e]; [|exact I].
  apply push_recurse_pop_suspended; intros c.
  - unfold restores. destruct (resource arn) as [next|e]; [|exact I].
    destruct (Resource_enumerate next arn c creds) as [rs|e]; [|exact I].
    rewrite yield_each_return. reflexivity.
  - destruct (resource arn) as [next|e]; [|exact I].
    destruct (Resource_enumerate next arn c creds) as [rs|e]; [|exact I].
    apply yield_each_suspended.
Qed.

Lemma Region_enumerate_suspended (self : ARNComponent) (arn : ARN E)
  (context : list string) (creds : option credentials) :
  suspended_all (fun c => length context < length c)
    (Region_enumerate self arn context creds).
Proof.
  unfold Region_enumerate.
  destruct (matches self arn (Some context)) as [ms|e]; [|exact I].
  apply push_recurse_pop_suspended; intros c;
    (destruct (account arn) as [next|e]; [|exact I]).
  - apply Account_enumerate_restores.
  - apply (suspended_all_impl (fun c' => length c < length c'));
      [intros; lia | apply Account_enumerate_suspended].
Qed.

Lemma Service_enumerate_suspended (self : ARNComponent) (arn : ARN E)
  (context : list string) (creds : option credentials) :
  suspended_all (fun c => length context < length c)
    (Service_enumerate self arn context creds).
Proof.
  unfold Service_enumerate.
  destruct (matches self arn (Some context)) as [ms|e]; [|exact I].
  apply push_recurse_pop_suspended; intros c;
    (destruct (region arn) as [next|e]; [|exact I]).
  - apply Region_enumerate_restores.
  - apply (suspended_all_impl (fun c' => length c < length c'));
      [intros; lia | apply Region_enumerate_suspended].
Qed.

Lemma Provider_enumerate_suspended (self : ARNComponent) (arn : ARN E)
  (context : list string) (creds : option credentials) :
  suspended_all (fun c => length context < length c)
    (Provider_enumerate self arn context creds).
Proof.
  unfold Provider_enumerate.
  destruct (matches self arn (Some context)) as [ms|e]; [|exact I].
  apply push_recurse_pop_suspended; intros c;
    (destruct (service arn) as [next|e]; [|exact I]).
  - apply Service_enumerate_restores.
  - apply (suspended_all_impl (fun c' => length c < length c'));
      [intros; lia | apply Service_enumerate_suspended].
Qed.

Lemma Scheme_enumerate_suspended (self : ARNComponent) (arn : ARN E)
  (context : list string) (creds : option credentials) :
  suspended_all (fun c => length context < length c)
    (Scheme_enumerate self arn context creds).
Proof.
  unfold Scheme_enumerate.
  destruct (matches self arn (Some context)) as [ms|e]; [|exact I].
  apply push_recurse_pop_suspended; intros c;
    (destruct (provider arn) as [next|e]; [|exact I]).
  - apply Provider_enumerate_restores.
  - apply (suspended_all_impl (fun c' => length c < length c'));
      [intros; lia | apply Provider_enumerate_suspended].
Qed.

End Generators.

(** ** Matching *)

(** The engine [Re] finds [.*] in every string. *)
Lemma Re_dotstar_matches_all : @dotstar_matches_all Demo.external.
Proof.
  exists (Re.Cat (Re.Star Re.AnyChr) Re.Eps). split; [reflexivity|].
  intros s. destruct s; reflexivity.
Qed.

Section Matching.

Context {E : External} {R : Registry E}.

Lemma match_loop_filter (r : regex) (cs acc : list string) :
  match_loop r cs acc = acc ++ filter (re_search r) cs.
Proof.
  revert acc; induction cs as [|c cs IH]; intros acc; simpl.
  - now rewrite app_nil_r.
  - rewrite IH. destruct (re_search r c); [|reflexivity].
    rewrite <- app_assoc. reflexivity.
Qed.

Lemma filter_all {A : Type} (f : A -> bool) (l : list A) :
  (forall x, f x = true) -> filter f l = l.
Proof.
  intros H. induction l as [|x l IH]; simpl; [reflexivity|].
  rewrite H, IH. reflexivity.
Qed.

End Matching.

Lemma cut_split (sep : ascii) (s : string) :
  match cut sep s with
  | Some (a, b) =>
      str_contains sep s = true /\ str_split sep (Some 1) s = [a; b]
  | None => str_contains sep s = false
  end.
Proof.
  induction s as [|c s IH]; simpl.
  - reflexivity.
  - destruct (Ascii.eqb c sep).
    + rewrite str_split_zero. split; reflexivity.
    + destruct (cut sep s) as [[a b]|].
      * destruct IH as [Hc Hs]. rewrite Hs. split; [exact Hc | reflexivity].
      * exact IH.
Qed.

Lemma _split_resource_type_and_id (resource : string) :
  _split_resource resource = Ok (type_and_id resource).
Proof.
  unfold _split_resource, type_and_id.
  pose proof (cut_split "/" resource) as Hs.
  destruct (cut "/" resource) as [[a b]|].
  - destruct Hs as [Hc Hs]. rewrite Hc, Hs. reflexivity.
  - rewrite Hs. pose proof (cut_split ":" resource) as Hc.
    destruct (cut ":" resource) as [[a b]|].
    + destruct Hc as [Hc Hsp]. rewrite Hc, Hsp. reflexivity.
    + rewrite Hc. reflexivity.
Qed.

(** C6. [_split_resource] splits ["bucket/my-bucket"] into type [bucket]
    and id [my-bucket], ["queue:my-queue"] into [queue] and [my-queue], and
    ["topic"] into [topic] with no id.  For every pattern it returns the
    type and id cut at the first [/], else at the first [:], else the whole
    pattern and no id; and [Resource.match] is [ARNComponent.match] on the
    type alone. *)
Theorem resource_pattern_split_and_match :
  _split_resource "bucket/my-bucket" = Ok ("bucket", Some "my-bucket") /\
  _split_resource "queue:my-queue" = Ok ("queue", Some "my-queue") /\
  _split_resource "topic" = Ok ("topic", None) /\
  (forall resource : string,
      _split_resource resource = Ok (type_and_id resource)) /\
  (forall (E : External) (R : Registry E) (self : ARNComponent)
          (arn : ARN E) (pattern0 : string) (context : option (list string)),
      Resource_match self arn pattern0 context =
      ARNComponent_match self arn (fst (type_and_id pattern0)) context).
Proof.
  repeat split; try reflexivity.
  - apply _split_resource_type_and_id.
  - intros. unfold Resource_match.
    rewrite _split_resource_type_and_id. reflexivity.
Qed.

(** C5. Where the pattern (with [*] read as [.*]) compiles to [r] and
    [choices(context)] returns [cs], [ARNComponent.match] returns the
    candidates of [cs] in which [r] finds a match, in the order of [cs];
    for the pattern [*] these are all of [cs]. *)
Theorem match_filters_choices_in_order (E : External) (R : Registry E)
  (self : ARNComponent) (arn : ARN E) (pattern0 : string)
  (context : option (list string)) (r : regex) (cs : list string) :
  re_compile (if String.eqb pattern0 "*" then ".*" else pattern0) = Ok r ->
  choices self arn context = Ok cs ->
  ARNComponent_match self arn pattern0 context = Ok (filter (re_search r) cs)
  /\ (dotstar_matches_all -> pattern0 = "*" ->
      ARNComponent_match self arn pattern0 context = Ok cs).
Proof.
  intros Hr Hcs.
  assert (Hm : ARNComponent_match self arn pattern0 context
               = Ok (filter (re_search r) cs)).
  { unfold ARNComponent_match. rewrite Hr. simpl. rewrite Hcs. simpl.
    rewrite match_loop_filter. reflexivity. }
  split; [exact Hm|].
  intros (r' & Hr' & Hall) Hp. subst pattern0. simpl in Hr.
  rewrite Hr' in Hr. inversion Hr; subst r'.
  rewrite Hm, (filter_all _ _ Hall). reflexivity.
Qed.

(** The pattern [east] finds the regions that contain it, [us-east-1]
    among them, in the order of the region list; the pattern [*] finds
    every region. *)
Lemma match_filters_choices_in_order_witness :
  @ARNComponent_match Demo.external Demo.registry
    (Demo.component "arn:aws:elb:east" 3) (Demo.locator "arn:aws:elb:east")
    "east" None
  = Ok ["us-east-1"; "ap-southeast-1"; "ap-southeast-2"; "ap-northeast-1";
        "sa-east-1"]
  /\ @ARNComponent_match Demo.external Demo.registry
       (Demo.component "arn:aws:elb" 3) (Demo.locator "arn:aws:elb")
       "*" None
     = Ok _all_region_names.
Proof.
  split.
  - apply (eq_trans
      (proj1 (match_filters_choices_in_order Demo.external Demo.registry
                (Demo.component "arn:aws:elb:east" 3)
                (Demo.locator "arn:aws:elb:east") "east" None
                (Re.Cat (Re.Chr "e") (Re.Cat (Re.Chr "a")
                   (Re.Cat (Re.Chr "s") (Re.Cat (Re.Chr "t") Re.Eps))))
                _all_region_names eq_refl eq_refl))).
    reflexivity.
  - exact (proj2 (match_filters_choices_in_order Demo.external Demo.registry
                    (Demo.component "arn:aws:elb" 3)
                    (Demo.locator "arn:aws:elb") "*" None
                    (Re.Cat (Re.Star Re.AnyChr) Re.Eps)
                    _all_region_names eq_refl eq_refl)
             Re_dotstar_matches_all eq_refl).
Defined.

(** C8, as stated, fails: the pattern is compiled before [choices] is
    called, so a pattern that does not compile raises although the
    candidate set is empty.  The provider [gcp] has no services; the
    service pattern [(] is an open group. *)
Lemma empty_candidates_bad_pattern_raises :
  @choices Demo.external Demo.registry
    (Demo.component "arn:gcp:(" 2) (Demo.locator "arn:gcp:(") None = Ok []
  /\ @ARNComponent_match Demo.external Demo.registry
       (Demo.component "arn:gcp:(" 2) (Demo.locator "arn:gcp:(") "(" None
     = Raise ReError
  /\ @matches Demo.external Demo.registry
       (Demo.component "arn:gcp:(" 2) (Demo.locator "arn:gcp:(") None
     <> Ok [].
Proof. repeat split; try reflexivity. discriminate. Qed.

(** C8, amended.  When [choices(context)] returns the empty list,
    [ARNComponent.match] returns the empty list for every pattern that
    compiles (with [*] read as [.*]), so for the wildcard; a pattern that
    does not compile leaves [match] with the error of [re.compile]. *)
Theorem match_empty_candidates (E : External) (R : Registry E)
  (self : ARNComponent) (arn : ARN E) (pattern0 : string)
  (context : option (list string)) :
  choices self arn context = Ok [] ->
  (forall r,
      re_compile (if String.eqb pattern0 "*" then ".*" else pattern0) = Ok r ->
      ARNComponent_match self arn pattern0 context = Ok [])
  /\ (dotstar_matches_all -> ARNComponent_match self arn "*" context = Ok [])
  /\ (forall e,
      re_compile (if String.eqb pattern0 "*" then ".*" else pattern0)
      = Raise e ->
      ARNComponent_match self arn pattern0 context = Raise e).
Proof.
  intros Hcs. repeat split.
  - intros r Hr. unfold ARNComponent_match. rewrite Hr. simpl.
    rewrite Hcs. reflexivity.
  - intros (r & Hr & _). unfold ARNComponent_match. simpl. rewrite Hr.
    simpl. rewrite Hcs. reflexivity.
  - intros e He. unfold ARNComponent_match. rewrite He. reflexivity.
Qed.

(** The provider [gcp] has no services: the pattern [elb] and the
    wildcard both match nothing there. *)
Lemma match_empty_candidates_witness :
  @ARNComponent_match Demo.external Demo.registry
    (Demo.component "arn:gcp:elb" 2) (Demo.locator "arn:gcp:elb") "elb" None
  = Ok []
  /\ @ARNComponent_match Demo.external Demo.registry
       (Demo.component "arn:gcp:elb" 2) (Demo.locator "arn:gcp:elb") "*" None
     = Ok [].
Proof.
  split.
  - apply (proj1 (match_empty_candidates Demo.external Demo.registry
                    (Demo.component "arn:gcp:elb" 2)
                    (Demo.locator "arn:gcp:elb") "elb" None eq_refl)
             (Re.Cat (Re.Chr "e") (Re.Cat (Re.Chr "l")
                (Re.Cat (Re.Chr "b") Re.Eps)))).
    reflexivity.
  - exact (proj1 (proj2 (match_empty_candidates Demo.external Demo.registry
                           (Demo.component "arn:gcp:elb" 2)
                           (Demo.locator "arn:gcp:elb") "elb" None eq_refl))
             Re_dotstar_matches_all).
Defined.

(** ** Regions *)

Lemma _service_region_map_keys : NoDup (map fst _service_region_map).
Proof.
  simpl. repeat constructor; simpl; intuition discriminate.
Qed.

(** C7. With a context that has a value [service0] at index 2,
    [Region.choices] returns the list the table has for [service0] when it
    is a key of the table, and the full region list when it is not. *)
Theorem Region_choices_with_context (E : External) (R : Registry E)
  (self : ARNComponent) (arn : ARN E) (context : list string)
  (service0 : string) :
  cls self = Region ->
  nth_error context 2 = Some service0 ->
  (forall restricted,
      In (service0, restricted) _service_region_map ->
      choices self arn (Some context) = Ok restricted)
  /\ (~ In service0 (map fst _service_region_map) ->
      choices self arn (Some context) = Ok _all_region_names).
Proof.
  intros Hcls Hnth.
  assert (Hch : choices self arn (Some context)
                = Ok (dict_get _service_region_map (KStr service0)
                        _all_region_names)).
  { unfold choices, Region_choices. rewrite Hcls.
    destruct context as [|c0 context]; [discriminate|].
    unfold truthy, context_at, index. rewrite Hnth. reflexivity. }
  split.
  - intros restricted Hin. rewrite Hch. f_equal.
    apply dict_get_present; [exact _service_region_map_keys | exact Hin].
  - intros Hnotin. rewrite Hch. f_equal.
    apply dict_get_absent. exact Hnotin.
Qed.

Lemma Region_choices_with_context_witness :
  @choices Demo.external Demo.registry
    (Demo.component "arn:aws:iam" 3) (Demo.locator "arn:aws:iam")
    (Some ["arn"; "aws"; "iam"]) = Ok [""]
  /\ @choices Demo.external Demo.registry
       (Demo.component "arn:aws:elb" 3) (Demo.locator "arn:aws:elb")
       (Some ["arn"; "aws"; "elb"]) = Ok _all_region_names.
Proof.
  split.
  - apply (proj1 (Region_choices_with_context Demo.external Demo.registry
                    (Demo.component "arn:aws:iam" 3)
                    (Demo.locator "arn:aws:iam") ["arn"; "aws"; "iam"] "iam"
                    eq_refl eq_refl)).
    simpl. tauto.
  - apply (proj2 (Region_choices_with_context Demo.external Demo.registry
                    (Demo.component "arn:aws:elb" 3)
                    (Demo.locator "arn:aws:elb") ["arn"; "aws"; "elb"] "elb"
                    eq_refl eq_refl)).
    simpl. intuition discriminate.
Defined.

(** C4.  What the code does for a query without context: the key handed
    to the table is the service component, not its pattern, so the lookup
    finds nothing and the full region list is returned, also for the
    locator [arn:aws:iam:*:*:*], whose service pattern is a key of the
    table with the list [['']]. *)
Theorem Region_choices_without_context (E : External) (R : Registry E) :
  (forall arn : ARN E,
      Region_choices arn None = (c <- service arn ;; Ok _all_region_names))
  /\ (forall creds,
      (arn <- ARN_init "arn:aws:iam:*:*:*" creds ;;
       self <- region arn ;;
       choices self arn None) = Ok _all_region_names)
  /\ dict_get _service_region_map (KStr "iam") _all_region_names = [""].
Proof.
  repeat split.
  intros arn. unfold Region_choices. simpl.
  destruct (service arn); reflexivity.
Qed.

(** ** Construction and printing *)

(** C2.  What the code does with seven tokens: [split(':', 6)] returns all
    seven, [zip_longest] pairs the seventh with the fill value, and calling
    that string raises [TypeError]; no locator is built.  So it is for
    [arn:aws:sqs:us-east-1:123456789012:queue:my-queue], and for every
    string without [|] that has seven tokens or more. *)
Theorem ARN_init_seven_tokens (E : External) (R : Registry E)
  (creds : option credentials) :
  str_split ":" (Some 6) "arn:aws:sqs:us-east-1:123456789012:queue:my-queue"
  = ["arn"; "aws"; "sqs"; "us-east-1"; "123456789012"; "queue"; "my-queue"]
  /\ ARN_init "arn:aws:sqs:us-east-1:123456789012:queue:my-queue" creds
     = Raise TypeError
  /\ (forall arn_string,
      str_contains "|" arn_string = false ->
      7 <= length (str_split ":" None arn_string) ->
      length (str_split ":" (Some 6) arn_string) = 7
      /\ ARN_init arn_string creds = Raise TypeError).
Proof.
  split; [reflexivity | split; [reflexivity|]].
  intros arn_string Hbar Hlen.
  pose proof (str_split_length ":" 6 arn_string) as Hsix.
  rewrite Nat.min_l in Hsix by lia.
  split; [exact Hsix|].
  unfold ARN_init, _build_components_from_string. rewrite Hbar.
  cbn [bind fst snd].
  destruct (str_split ":" (Some 6) arn_string)
    as [|t0 [|t1 [|t2 [|t3 [|t4 [|t5 [|t6 [|t7 l]]]]]]]];
    try discriminate Hsix.
  reflexivity.
Qed.

Lemma ARN_init_seven_tokens_witness :
  length (str_split ":" (Some 6) "arn:aws:rds:us-east-1:123456789012:db:main")
  = 7
  /\ @ARN_init Demo.external Demo.registry
       "arn:aws:rds:us-east-1:123456789012:db:main" None
     = Raise TypeError.
Proof.
  apply (proj2 (proj2 (ARN_init_seven_tokens Demo.external Demo.registry None))
           "arn:aws:rds:us-east-1:123456789012:db:main").
  - reflexivity.
  - simpl. lia.
Defined.

(** With at most six tokens and no filter, construction builds six
    components, one of each class in the order of [ComponentClasses], from
    the tokens padded with [*]. *)
Lemma ARN_init_six_components (E : External) (R : Registry E)
  (arn_string : string) (creds : option credentials) :
  str_contains "|" arn_string = false ->
  length (str_split ":" None arn_string) <= 6 ->
  exists arn,
    ARN_init arn_string creds = Ok arn /\
    map cls (_components arn) = ComponentClasses /\
    map pattern (_components arn) =
    str_split ":" None arn_string ++
    repeat "*" (6 - length (str_split ":" None arn_string)).
Proof.
  intros Hbar Hlen.
  pose proof (str_split_not_nil ":" None arn_string) as Hne.
  unfold ARN_init, _build_components_from_string. rewrite Hbar.
  cbn [bind fst snd]. rewrite str_split_limit_slack by lia.
  destruct (str_split ":" None arn_string)
    as [|t0 [|t1 [|t2 [|t3 [|t4 [|t5 [|t6 l]]]]]]];
    [congruence | | | | | | | simpl in Hlen; lia];
    (eexists; split; [reflexivity | split; reflexivity]).
Qed.

(** C10. A string of exactly six tokens with no [|] is printed back
    unchanged by the locator built from it. *)
Theorem ARN_repr_round_trip (E : External) (R : Registry E)
  (arn_string : string) (creds : option credentials) :
  str_contains "|" arn_string = false ->
  length (str_split ":" None arn_string) = 6 ->
  exists arn,
    ARN_init arn_string creds = Ok arn /\ ARN_repr arn = arn_string.
Proof.
  intros Hbar Hlen.
  destruct (ARN_init_six_components E R arn_string creds Hbar)
    as (arn & Hinit & _ & Hpat); [lia|].
  exists arn. split; [exact Hinit|].
  unfold ARN_repr. rewrite Hpat, Hlen. simpl. rewrite app_nil_r.
  apply (str_join_split ":" None arn_string).
Qed.

Lemma ARN_repr_round_trip_witness :
  exists arn,
    @ARN_init Demo.external Demo.registry
      "arn:aws:elb:us-east-1:123456789012:loadbalancer/web" None = Ok arn
    /\ ARN_repr arn = "arn:aws:elb:us-east-1:123456789012:loadbalancer/web".
Proof.
  apply (ARN_repr_round_trip Demo.external Demo.registry
           "arn:aws:elb:us-east-1:123456789012:loadbalancer/web" None);
    reflexivity.
Defined.

(** ** Enumeration *)

Section Enumeration.

Context {E : External} {R : Registry E}.

Lemma loop_single_items (next_level : list string -> generator)
  (m : string) (context : list string) :
  (forall c, restores (next_level c) c) ->
  gen_items (push_recurse_pop next_level [m] context) =
  gen_items (next_level (context ++ [m])).
Proof.
  intros Hnext. rewrite push_recurse_pop_items by exact Hnext.
  destruct (gen_error (next_level (context ++ [m]))); apply app_nil_r.
Qed.

Lemma loop_single_error (next_level : list string -> generator)
  (m : string) (context : list string) :
  (forall c, restores (next_level c) c) ->
  gen_error (push_recurse_pop next_level [m] context) =
  gen_error (next_level (context ++ [m])).
Proof.
  intros Hnext. rewrite push_recurse_pop_error by exact Hnext.
  destruct (gen_error (next_level (context ++ [m]))); reflexivity.
Qed.

Lemma push_recurse_pop_in_order (next_level : list string -> generator)
  (ms : list string) (context : list string) :
  (forall c, restores (next_level c) c) ->
  gen_items (push_recurse_pop next_level ms context) =
  in_order (fun m => next_level (context ++ [m])) ms.
Proof.
  intros Hnext. induction ms as [|m ms IH].
  - reflexivity.
  - rewrite push_recurse_pop_items by exact Hnext.
    cbn [in_order]. rewrite IH. reflexivity.
Qed.

(** The loop of [Resource.enumerate] stops at the first type whose class
    the registry does not resolve, with the registry's error. *)
Lemma Resource_loop_unresolvable (arn : ARN E)
  (provider0 service_name region0 account0 : string)
  (resource_id : option string) (creds : option credentials)
  (before : list string) (t : string) (after : list string) (e : exn) :
  (forall t', In t' before ->
     exists c found,
       find_resource_class (str_join "." [provider0; service_name; t']) = Ok c
       /\ cls_enumerate c arn region0 account0 resource_id creds = Ok found) ->
  find_resource_class (str_join "." [provider0; service_name; t]) = Raise e ->
  forall resources,
    Resource_loop arn provider0 service_name region0 account0 resource_id
      creds (before ++ t :: after) resources = Raise e.
Proof.
  intros Hbefore Ht.
  induction before as [|t' before IH]; intros resources.
  - cbn [app Resource_loop]. rewrite Ht. reflexivity.
  - destruct (Hbefore t' (or_introl eq_refl)) as (c & found & Hc & Hfound).
    cbn [app Resource_loop]. rewrite Hc. cbn [bind]. rewrite Hfound.
    cbn [bind]. apply IH. intros t'' Hin. apply Hbefore. right. exact Hin.
Qed.

(** The loop of [Resource.enumerate] appends, to the records it starts
    with, the records of the types from left to right, and stops at the
    first type that raises. *)
Lemma Resource_loop_in_order (arn : ARN E)
  (provider0 service_name region0 account0 : string)
  (resource_id : option string) (creds : option credentials)
  (types : list string) (resources : list ResourceRecord) :
  Resource_loop arn provider0 service_name region0 account0 resource_id
    creds types resources =
  (found <-
     records_in_order
       (fun t =>
          c <- find_resource_class
                 (str_join "." [provider0; service_name; t]) ;;
          cls_enumerate c arn region0 account0 resource_id creds)
       types ;;
   Ok (resources ++ found)).
Proof.
  revert resources. induction types as [|t types IH]; intros resources.
  - cbn [Resource_loop records_in_order bind]. rewrite app_nil_r.
    reflexivity.
  - cbn [Resource_loop records_in_order].
    destruct (find_resource_class _) as [c|e]; [|reflexivity].
    cbn [bind].
    destruct (cls_enumerate c arn region0 account0 resource_id creds)
      as [found|e]; [|reflexivity].
    cbn [bind]. rewrite IH.
    destruct (records_in_order _ types) as [later|e]; [|reflexivity].
    cbn [bind]. rewrite app_assoc. reflexivity.
Qed.

End Enumeration.

Ltac next_level_restores :=
  let c := fresh "c" in
  intros c;
  match goal with
  | |- restores (match ?x with Ok _ => _ | Raise _ => _ end) _ =>
      destruct x; [|exact I]
  end;
  first [ apply Provider_enumerate_restores
        | apply Service_enumerate_restores
        | apply Region_enumerate_restores
        | apply Account_enumerate_restores ].

(** C1, as stated, fails.  A consumer that takes the first of the two load
    balancers of [arn:aws:elb:us-east-1] and drops the sequence leaves the
    five values pushed on the way down in the list that was empty before
    the call; and the error raised for [arn:aws:sns:us-east-1], whose first
    resource type has no class, leaves them there as well. *)
Lemma abandoned_or_failed_enumerate_keeps_context :
  context_after 1
    (@Scheme_enumerate Demo.external Demo.registry
       (Demo.component "arn:aws:elb:us-east-1" 0)
       (Demo.locator "arn:aws:elb:us-east-1") [] None) []
  = ["arn"; "aws"; "elb"; "us-east-1"; "123456789012"]
  /\ @Scheme_enumerate Demo.external Demo.registry
       (Demo.component "arn:aws:sns:us-east-1" 0)
       (Demo.locator "arn:aws:sns:us-east-1") [] None
     = Throw (OtherError "KeyError")
         ["arn"; "aws"; "sns"; "us-east-1"; "123456789012"]
  /\ length ["arn"; "aws"; "elb"; "us-east-1"; "123456789012"]
     <> length (@nil string).
Proof. repeat split. discriminate. Qed.

(** C1, amended.  Let [g] be the generator that the [enumerate] of a
    generator level (scheme, provider, service, region or account) returns
    when called with the shared list holding [context].  When [g] has run
    to its return, also with no match at some level, the list holds
    [context] again.  While [g] is suspended after one of its items, and
    so when the consumer drops it there, the list is longer than
    [context]. *)
Theorem enumerate_returned_restores_context (E : External) (R : Registry E)
  (self : ARNComponent) (arn : ARN E) (context : list string)
  (creds : option credentials) (g : generator) :
  g = Scheme_enumerate self arn context creds
  \/ g = Provider_enumerate self arn context creds
  \/ g = Service_enumerate self arn context creds
  \/ g = Region_enumerate self arn context creds
  \/ g = Account_enumerate self arn context creds ->
  (forall context', context_at_return g = Some context' -> context' = context)
  /\ (forall pulls,
      1 <= pulls <= length (gen_items g) ->
      length context < length (context_after pulls g context)).
Proof.
  intros Hg.
  assert (Hboth : restores g context /\
                  suspended_all (fun c => length context < length c) g).
  { destruct Hg as [H | [H | [H | [H | H]]]]; subst g; split.
    - apply Scheme_enumerate_restores.
    - apply Scheme_enumerate_suspended.
    - apply Provider_enumerate_restores.
    - apply Provider_enumerate_suspended.
    - apply Service_enumerate_restores.
    - apply Service_enumerate_suspended.
    - apply Region_enumerate_restores.
    - apply Region_enumerate_suspended.
    - apply Account_enumerate_restores.
    - apply Account_enumerate_suspended. }
  destruct Hboth as [Hret Hsus]. split.
  - intros context' H. unfold restores in Hret. rewrite H in Hret.
    exact Hret.
  - intros pulls Hpulls.
    exact (context_after_suspended _ g pulls context Hsus Hpulls).
Qed.

(** The traversal of [arn:aws:elb:us-east-1] from the service level, with
    two values on the list: run to its end it leaves the two values, and
    after its first item the list is longer; and the traversal of
    [arn:aws:nothing], which matches no service, leaves the empty list
    empty. *)
Lemma enumerate_returned_restores_context_witness :
  (forall context',
      context_at_return
        (@Service_enumerate Demo.external Demo.registry
           (Demo.component "arn:aws:elb:us-east-1" 2)
           (Demo.locator "arn:aws:elb:us-east-1") ["arn"; "aws"] None)
      = Some context' ->
      context' = ["arn"; "aws"])
  /\ length ["arn"; "aws"] <
     length
       (context_after 1
          (@Service_enumerate Demo.external Demo.registry
             (Demo.component "arn:aws:elb:us-east-1" 2)
             (Demo.locator "arn:aws:elb:us-east-1") ["arn"; "aws"] None)
          ["arn"; "aws"])
  /\ context_at_return
       (@Service_enumerate Demo.external Demo.registry
          (Demo.component "arn:aws:elb:us-east-1" 2)
          (Demo.locator "arn:aws:elb:us-east-1") ["arn"; "aws"] None)
     = Some ["arn"; "aws"]
  /\ context_at_return
       (@Scheme_enumerate Demo.external Demo.registry
          (Demo.component "arn:aws:nothing" 0)
          (Demo.locator "arn:aws:nothing") [] None)
     = Some [].
Proof.
  split; [|split; [|split; reflexivity]].
  - apply (proj1 (enumerate_returned_restores_context
                    Demo.external Demo.registry
                    (Demo.component "arn:aws:elb:us-east-1" 2)
                    (Demo.locator "arn:aws:elb:us-east-1") ["arn"; "aws"]
                    None _ (or_intror (or_intror (or_introl eq_refl))))).
  - apply (proj2 (enumerate_returned_restores_context
                    Demo.external Demo.registry
                    (Demo.component "arn:aws:elb:us-east-1" 2)
                    (Demo.locator "arn:aws:elb:us-east-1") ["arn"; "aws"]
                    None _ (or_intror (or_intror (or_introl eq_refl))))).
    simpl. lia.
Defined.

(** C3, as stated, fails.  For [arn:aws:sns:us-east-1] the matching
    resource types are [topic], whose class the registry does not resolve,
    and [subscription], whose class it resolves and which has a record;
    [Resource.enumerate] raises the registry's error and returns
    nothing. *)
Lemma unresolvable_type_aborts_siblings :
  @matches Demo.external Demo.registry
    (Demo.component "arn:aws:sns:us-east-1" 5)
    (Demo.locator "arn:aws:sns:us-east-1")
    (Some ["arn"; "aws"; "sns"; "us-east-1"; "123456789012"])
  = Ok ["topic"; "subscription"]
  /\ Demo.find_class "aws.sns.topic" = Raise (OtherError "KeyError")
  /\ (c <- Demo.find_class "aws.sns.subscription" ;;
      Demo.enumerate_class c (Demo.locator "arn:aws:sns:us-east-1")
        "us-east-1" "123456789012" None None)
     = Ok ["Subscription:us-east-1:123456789012:sub-1"]
  /\ @Resource_enumerate Demo.external Demo.registry
       (Demo.component "arn:aws:sns:us-east-1" 5)
       (Demo.locator "arn:aws:sns:us-east-1")
       ["arn"; "aws"; "sns"; "us-east-1"; "123456789012"] None
     = Raise (OtherError "KeyError").
Proof. repeat split. Qed.

(** C3, amended.  When the class of a matching resource type is not
    resolved by the registry, and the types matched before it were
    enumerated, [Resource.enumerate] raises the error of the registry
    lookup: it returns no records and does not reach the types matched
    after it. *)
Theorem Resource_enumerate_unresolvable_type (E : External) (R : Registry E)
  (self : ARNComponent) (arn : ARN E)
  (scheme0 provider0 service_name region0 account0 : string)
  (creds : option credentials)
  (before : list string) (t : string) (after : list string) (e : exn) :
  matches self arn
    (Some [scheme0; provider0; service_name; region0; account0])
  = Ok (before ++ t :: after) ->
  (forall t', In t' before ->
     exists c found,
       find_resource_class (str_join "." [provider0; service_name; t']) = Ok c
       /\ cls_enumerate c arn region0 account0
            (snd (type_and_id (pattern self))) creds = Ok found) ->
  find_resource_class (str_join "." [provider0; service_name; t]) = Raise e ->
  Resource_enumerate self arn
    [scheme0; provider0; service_name; region0; account0] creds = Raise e.
Proof.
  intros Hm Hbefore Ht. unfold Resource_enumerate.
  rewrite _split_resource_type_and_id. cbn [bind]. rewrite Hm. cbn [bind].
  apply Resource_loop_unresolvable; assumption.
Qed.

Lemma Resource_enumerate_unresolvable_type_witness :
  @Resource_enumerate Demo.external Demo.registry
    (Demo.component "arn:aws:sns:us-east-1" 5)
    (Demo.locator "arn:aws:sns:us-east-1")
    ["arn"; "aws"; "sns"; "us-east-1"; "123456789012"] None
  = Raise (OtherError "KeyError").
Proof.
  apply (Resource_enumerate_unresolvable_type Demo.external Demo.registry
           (Demo.component "arn:aws:sns:us-east-1" 5)
           (Demo.locator "arn:aws:sns:us-east-1")
           "arn" "aws" "sns" "us-east-1" "123456789012" None
           [] "topic" ["subscription"] (OtherError "KeyError")).
  - reflexivity.
  - intros t' [].
  - reflexivity.
Defined.

(** C9. The records of every level are those of the branches of its
    matches, depth first and left to right: so it is for the five
    generator levels, scheme outermost, and for [Resource.enumerate],
    innermost, whose list is the records of its matching types, one type
    after the other in the order of the matches.  In particular, with one
    matching scheme [a] and provider [p], two matching services [s1; s2]
    and one matching region [r1] under each, the records of the top-level
    enumeration are those produced under [s1], in their order, followed by
    those produced under [s2] (which are reached when the traversal under
    [s1] raised nothing). *)
Theorem iter_depth_first (E : External) (R : Registry E) (arn : ARN E) :
  (forall (self : ARNComponent) (context : list string)
          (creds : option credentials) (ms : list string),
      matches self arn (Some context) = Ok ms ->
      gen_items (Scheme_enumerate self arn context creds) =
      in_order
        (fun m =>
           match provider arn with
           | Raise e => Throw e (context ++ [m])
           | Ok next => Provider_enumerate next arn (context ++ [m]) creds
           end) ms
      /\ gen_items (Provider_enumerate self arn context creds) =
         in_order
           (fun m =>
              match service arn with
              | Raise e => Throw e (context ++ [m])
              | Ok next => Service_enumerate next arn (context ++ [m]) creds
              end) ms
      /\ gen_items (Service_enumerate self arn context creds) =
         in_order
           (fun m =>
              match region arn with
              | Raise e => Throw e (context ++ [m])
              | Ok next => Region_enumerate next arn (context ++ [m]) creds
              end) ms
      /\ gen_items (Region_enumerate self arn context creds) =
         in_order
           (fun m =>
              match account arn with
              | Raise e => Throw e (context ++ [m])
              | Ok next => Account_enumerate next arn (context ++ [m]) creds
              end) ms
      /\ gen_items (Account_enumerate self arn context creds) =
         in_order
           (fun m =>
              match resource arn with
              | Raise e => Throw e (context ++ [m])
              | Ok next =>
                  match Resource_enumerate next arn (context ++ [m]) creds
                  with
                  | Raise e => Throw e (context ++ [m])
                  | Ok resources => yield_each resources (context ++ [m])
                  end
              end) ms)
  /\ (forall (self : ARNComponent)
             (scheme0 provider0 service_name region0 account0 : string)
             (creds : option credentials),
      Resource_enumerate self arn
        [scheme0; provider0; service_name; region0; account0] creds =
      (types <-
         matches self arn
           (Some [scheme0; provider0; service_name; region0; account0]) ;;
       records_in_order
         (fun t =>
            c <- find_resource_class
                   (str_join "." [provider0; service_name; t]) ;;
            cls_enumerate c arn region0 account0
              (snd (type_and_id (pattern self))) creds)
         types))
  /\ (forall (sch prov svc reg acc : ARNComponent) (a p s1 s2 r1 : string),
      scheme arn = Ok sch -> provider arn = Ok prov ->
      service arn = Ok svc -> region arn = Ok reg -> account arn = Ok acc ->
      matches sch arn (Some []) = Ok [a] ->
      matches prov arn (Some [a]) = Ok [p] ->
      matches svc arn (Some [a; p]) = Ok [s1; s2] ->
      matches reg arn (Some [a; p; s1]) = Ok [r1] ->
      matches reg arn (Some [a; p; s2]) = Ok [r1] ->
      gen_items (ARN_iter arn) =
      gen_items (Account_enumerate acc arn [a; p; s1; r1] (aws_creds arn)) ++
      match
        gen_error (Account_enumerate acc arn [a; p; s1; r1] (aws_creds arn))
      with
      | None =>
          gen_items (Account_enumerate acc arn [a; p; s2; r1] (aws_creds arn))
      | Some _ => []
      end).
Proof.
  split; [|split].
  - intros self context creds ms Hm.
    unfold Scheme_enumerate, Provider_enumerate, Service_enumerate,
      Region_enumerate, Account_enumerate.
    rewrite Hm.
    repeat split;
      (rewrite push_recurse_pop_in_order; [reflexivity|]).
    + next_level_restores.
    + next_level_restores.
    + next_level_restores.
    + next_level_restores.
    + intros c. unfold restores.
      destruct (resource arn) as [next|e]; [|exact I].
      destruct (Resource_enumerate next arn c creds); [|exact I].
      rewrite yield_each_return. reflexivity.
  - intros self scheme0 provider0 service_name region0 account0 creds.
    unfold Resource_enumerate.
    rewrite _split_resource_type_and_id. cbn [bind].
    destruct (matches self arn _) as [types|e]; [|reflexivity].
    cbn [bind]. rewrite Resource_loop_in_order.
    destruct (records_in_order _ types); reflexivity.
  - intros sch prov svc reg acc a p s1 s2 r1
      Hsch Hprov Hsvc Hreg Hacc Hm0 Hm1 Hm2 Hm3 Hm4.
    unfold ARN_iter. rewrite Hsch.
    unfold Scheme_enumerate. rewrite Hm0.
    rewrite loop_single_items by next_level_restores.
    rewrite Hprov. cbn [app].
    unfold Provider_enumerate. rewrite Hm1.
    rewrite loop_single_items by next_level_restores.
    rewrite Hsvc. cbn [app].
    unfold Service_enumerate. rewrite Hm2.
    rewrite push_recurse_pop_items by next_level_restores.
    rewrite loop_single_items by next_level_restores.
    rewrite Hreg. cbn [app].
    unfold Region_enumerate. rewrite Hm3, Hm4.
    rewrite !loop_single_items by next_level_restores.
    rewrite loop_single_error by next_level_restores.
    rewrite Hacc. reflexivity.
Qed.

(** In the registry where [ec2] has three types, the services [ec2] and
    [elb] match [e]: the instance, the volumes and the snapshot of [ec2],
    in the order of its types, come before the load balancers of [elb];
    and [Resource.enumerate] under [ec2] returns the records of the three
    types in that order. *)
Lemma iter_depth_first_witness :
  gen_items (@ARN_iter Demo.external Demo.registry_wide
               (Demo.locator "arn:aws:e:us-east-1"))
  = ["Instance:us-east-1:123456789012:i-1";
     "Volume:us-east-1:123456789012:vol-1";
     "Volume:us-east-1:123456789012:vol-2";
     "Snapshot:us-east-1:123456789012:snap-1";
     "LoadBalancer:us-east-1:123456789012:lb-1";
     "LoadBalancer:us-east-1:123456789012:lb-2"]
  /\ @Resource_enumerate Demo.external Demo.registry_wide
       (Demo.component "arn:aws:e:us-east-1" 5)
       (Demo.locator "arn:aws:e:us-east-1")
       ["arn"; "aws"; "ec2"; "us-east-1"; "123456789012"] None
     = Ok ["Instance:us-east-1:123456789012:i-1";
           "Volume:us-east-1:123456789012:vol-1";
           "Volume:us-east-1:123456789012:vol-2";
           "Snapshot:us-east-1:123456789012:snap-1"].
Proof.
  split.
  - apply (eq_trans
      (proj2 (proj2 (iter_depth_first Demo.external Demo.registry_wide
                       (Demo.locator "arn:aws:e:us-east-1")))
         (Demo.component "arn:aws:e:us-east-1" 0)
         (Demo.component "arn:aws:e:us-east-1" 1)
         (Demo.component "arn:aws:e:us-east-1" 2)
         (Demo.component "arn:aws:e:us-east-1" 3)
         (Demo.component "arn:aws:e:us-east-1" 4)
         "arn" "aws" "ec2" "elb" "us-east-1"
         eq_refl eq_refl eq_refl eq_refl eq_refl
         eq_refl eq_refl eq_refl eq_refl eq_refl)).
    reflexivity.
  - apply (eq_trans
      (proj1 (proj2 (iter_depth_first Demo.external Demo.registry_wide
                       (Demo.locator "arn:aws:e:us-east-1")))
         (Demo.component "arn:aws:e:us-east-1" 5)
         "arn" "aws" "ec2" "us-east-1" "123456789012" None)).
    reflexivity.
Defined.

(** * Further properties of the module *)

(** ** Strings *)

Lemma str_contains_app (c : ascii) (a b : string) :
  str_contains c (a ++ b)%string = str_contains c a || str_contains c b.
Proof.
  induction a as [|d a IH]; simpl; [reflexivity|].
  destruct (Ascii.eqb d c); [reflexivity | exact IH].
Qed.

(** Splitting [a sep b] without limit, when [a] is free of the separator:
    [a], then the tokens of [b]. *)
Lemma str_split_app_sep (sep : ascii) (a b : string) :
  str_contains sep a = false ->
  str_split sep None (a ++ String sep b)%string = a :: str_split sep None b.
Proof.
  induction a as [|c a IH]; simpl; intros H.
  - rewrite Ascii.eqb_refl. reflexivity.
  - destruct (Ascii.eqb c sep); [discriminate|]. rewrite (IH H). reflexivity.
Qed.

(** Every separator adds a token. *)
Lemma str_split_app_length (sep : ascii) (a b : string) :
  length (str_split sep None (a ++ String sep b)%string) =
  length (str_split sep None a) + length (str_split sep None b).
Proof.
  induction a as [|c a IH]; simpl.
  - rewrite Ascii.eqb_refl. reflexivity.
  - destruct (Ascii.eqb c sep).
    + simpl. rewrite IH. reflexivity.
    + pose proof (str_split_not_nil sep None (a ++ String sep b)) as H1.
      pose proof (str_split_not_nil sep None a) as H2.
      destruct (str_split sep None (a ++ String sep b)%string);
        [congruence|].
      destruct (str_split sep None a); [congruence|].
      exact IH.
Qed.

Lemma str_split_absent (sep : ascii) (m : option nat) (s : string) :
  str_contains sep s = false -> str_split sep m s = [s].
Proof.
  induction s as [|c s IH]; simpl; intros H.
  - reflexivity.
  - destruct (Ascii.eqb c sep); [discriminate|]. rewrite (IH H). reflexivity.
Qed.

(** The tokens of an unlimited split are free of the separator. *)
Lemma str_split_tokens_free (sep : ascii) (s : string) :
  Forall (fun t => str_contains sep t = false) (str_split sep None s).
Proof.
  induction s as [|c s IH]; simpl.
  - repeat constructor.
  - destruct (Ascii.eqb c sep) eqn:Hc.
    + constructor; [reflexivity | exact IH].
    + destruct (str_split sep None s) as [|t ts].
      * repeat constructor. simpl. rewrite Hc. reflexivity.
      * inversion IH as [|? ? Ht Hts]; subst.
        constructor; [simpl; rewrite Hc; exact Ht | exact Hts].
Qed.

(** The tokens of a string without [c] are without [c]. *)
Lemma str_split_tokens_without (c sep : ascii) (m : option nat) (s : string) :
  str_contains c s = false ->
  Forall (fun t => str_contains c t = false) (str_split sep m s).
Proof.
  revert m; induction s as [|d s IH]; intros m H.
  - repeat constructor.
  - simpl in H. destruct (Ascii.eqb d c) eqn:Hd; [discriminate|].
    simpl. destruct (Ascii.eqb d sep).
    + destruct m as [[|n]|].
      * repeat constructor. simpl. rewrite Hd. exact H.
      * constructor; [reflexivity | exact (IH _ H)].
      * constructor; [reflexivity | exact (IH _ H)].
    + specialize (IH m H). destruct (str_split sep m s) as [|t ts].
      * repeat constructor. simpl. rewrite Hd. reflexivity.
      * inversion IH as [|? ? Ht Hts]; subst.
        constructor; [simpl; rewrite Hd; exact Ht | exact Hts].
Qed.

Lemma str_contains_join (c sep : ascii) (l : list string) :
  Ascii.eqb sep c = false ->
  Forall (fun t => str_contains c t = false) l ->
  str_contains c (str_join (String sep EmptyString) l) = false.
Proof.
  intros Hsep Hl. induction Hl as [|x l Hx Hl IH].
  - reflexivity.
  - cbn [str_join]. destruct l as [|y l]; [exact Hx|].
    rewrite str_contains_app, Hx. simpl. rewrite Hsep. exact IH.
Qed.

(** Splitting what [join] made of separator-free tokens gives the tokens. *)
Lemma str_split_join (sep : ascii) (l : list string) :
  l <> [] ->
  Forall (fun t => str_contains sep t = false) l ->
  str_split sep None (str_join (String sep EmptyString) l) = l.
Proof.
  intros Hne Hl. induction Hl as [|x l Hx Hl IH]; [congruence|].
  cbn [str_join]. destruct l as [|y l].
  - apply str_split_absent. exact Hx.
  - change (x ++ String sep EmptyString ++
            str_join (String sep EmptyString) (y :: l))%string
      with (x ++ String sep (str_join (String sep EmptyString) (y :: l)))
           %string.
    rewrite (str_split_app_sep sep x _ Hx). rewrite IH by discriminate.
    reflexivity.
Qed.

Lemma str_append_assoc (a b c : string) :
  ((a ++ b) ++ c)%string = (a ++ b ++ c)%string.
Proof. induction a as [|x a IH]; simpl; [|rewrite IH]; reflexivity. Qed.

Lemma str_join_snoc (sep : string) (l : list string) (x : string) :
  l <> [] ->
  str_join sep (l ++ [x]) = (str_join sep l ++ sep ++ x)%string.
Proof.
  induction l as [|y l IH]; intros Hne; [congruence|].
  destruct l as [|z l].
  - reflexivity.
  - change (str_join sep ((y :: z :: l) ++ [x]))
      with (y ++ sep ++ str_join sep ((z :: l) ++ [x]))%string.
    rewrite IH by discriminate.
    change (str_join sep (y :: z :: l))
      with (y ++ sep ++ str_join sep (z :: l))%string.
    rewrite !str_append_assoc. reflexivity.
Qed.

(** Joining tokens padded with [k] wildcards appends [k] times [:*]. *)
Lemma str_join_padded (l : list string) (k : nat) :
  l <> [] ->
  str_join ":" (l ++ repeat "*" k) =
  (str_join ":" l ++ String.concat "" (repeat ":*" k))%string.
Proof.
  revert l. induction k as [|k IH]; intros l Hne.
  - simpl. rewrite app_nil_r.
    induction (str_join ":" l) as [|c s IHs]; simpl; [|rewrite <- IHs];
      reflexivity.
  - change (repeat "*" (S k)) with (["*"] ++ repeat "*" k).
    rewrite app_assoc, IH by (destruct l; discriminate).
    rewrite str_join_snoc by exact Hne.
    rewrite !str_append_assoc. f_equal.
    destruct k; reflexivity.
Qed.

(** ** Construction *)

Section Construction.

Context {E : External} {R : Registry E}.

(** What the comprehension of [_build_components_from_string] builds from
    a list of tokens: six components from at most six tokens, an error
    from more. *)
Lemma components_of_tokens (tokens : list string) :
  map_result (fun cn => instantiate (fst cn) (snd cn))
    (zip_longest (Str "*") "*" (map Cls ComponentClasses) tokens) =
  if Nat.leb (length tokens) 6
  then Ok (map (fun kn => built (fst kn) (snd kn))
             (combine ComponentClasses
                (tokens ++ repeat "*" (6 - length tokens))))
  else Raise TypeError.
Proof.
  destruct tokens as [|t0 [|t1 [|t2 [|t3 [|t4 [|t5 [|t6 l]]]]]]];
    reflexivity.
Qed.

Lemma ARN_init_no_filter (arn_string : string) (creds : option credentials) :
  str_contains "|" arn_string = false ->
  ARN_init arn_string creds =
  (components <-
     map_result (fun cn => instantiate (fst cn) (snd cn))
       (zip_longest (Str "*") "*" (map Cls ComponentClasses)
          (str_split ":" (Some 6) arn_string)) ;;
   Ok {| query := None; _components := components; aws_creds := creds |}).
Proof.
  intros Hbar. unfold ARN_init, _build_components_from_string.
  rewrite Hbar. cbn [bind fst snd].
  destruct (map_result _ _); reflexivity.
Qed.

End Construction.

(** A locator that was constructed has six components, built for the six
    classes in their order. *)
Lemma ARN_init_built (E : External) (R : Registry E)
  (arn_string : string) (creds : option credentials) (arn : ARN E) :
  ARN_init arn_string creds = Ok arn ->
  exists n0 n1 n2 n3 n4 n5,
    _components arn =
    [built Scheme n0; built Provider n1; built Service n2;
     built Region n3; built Account n4; built Resource n5]
    /\ aws_creds arn = creds.
Proof.
  unfold ARN_init, _build_components_from_string. intros H.
  destruct (if str_contains "|" arn_string
            then match str_split "|" None arn_string with
                 | [arn_string'; query0] =>
                     compiled <- jmespath_compile query0 ;;
                     Ok (arn_string', Some compiled)
                 | _ => Raise ValueError
                 end
            else Ok (arn_string, None)) as [parts|e]; [|discriminate H].
  cbn [bind] in H. rewrite components_of_tokens in H.
  destruct (str_split ":" (Some 6) (fst parts))
    as [|t0 [|t1 [|t2 [|t3 [|t4 [|t5 [|t6 l]]]]]]];
    cbn in H; try discriminate H; inversion H; subst arn;
    do 6 eexists; cbn; split; reflexivity.
Qed.

(** X1. Whenever construction succeeds, whatever the string, the locator
    has exactly six components, of the six classes in the order of
    [ComponentClasses]; the account component holds the configured
    accounts; so none of the six properties raises. *)
Theorem ARN_init_ok_six_components (E : External) (R : Registry E)
  (arn_string : string) (creds : option credentials) (arn : ARN E) :
  ARN_init arn_string creds = Ok arn ->
  exists n0 n1 n2 n3 n4 n5,
    _components arn =
    [built Scheme n0; built Provider n1; built Service n2;
     built Region n3; built Account n4; built Resource n5]
    /\ scheme arn = Ok (built Scheme n0)
    /\ provider arn = Ok (built Provider n1)
    /\ service arn = Ok (built Service n2)
    /\ region arn = Ok (built Region n3)
    /\ account arn = Ok (built Account n4)
    /\ resource arn = Ok (built Resource n5)
    /\ aws_creds arn = creds.
Proof.
  intros H.
  destruct (ARN_init_built E R arn_string creds arn H)
    as (n0 & n1 & n2 & n3 & n4 & n5 & Hc & Hcreds).
  exists n0, n1, n2, n3, n4, n5.
  unfold scheme, provider, service, region, account, resource.
  rewrite Hc. repeat split. exact Hcreds.
Qed.

Lemma ARN_init_ok_six_components_witness :
  exists n0 n1 n2 n3 n4 n5,
    _components (Demo.locator "arn:aws:elb") =
    [@built Demo.external Demo.registry Scheme n0;
     @built Demo.external Demo.registry Provider n1;
     @built Demo.external Demo.registry Service n2;
     @built Demo.external Demo.registry Region n3;
     @built Demo.external Demo.registry Account n4;
     @built Demo.external Demo.registry Resource n5].
Proof.
  destruct (ARN_init_ok_six_components Demo.external Demo.registry
              "arn:aws:elb" None (Demo.locator "arn:aws:elb") eq_refl)
    as (n0 & n1 & n2 & n3 & n4 & n5 & H & _).
  exists n0, n1, n2, n3, n4, n5. exact H.
Defined.

(** X2. A string of at most six tokens without [|] is printed back with
    [:*] appended for every token that is missing. *)
Theorem ARN_repr_pads_missing_tokens (E : External) (R : Registry E)
  (arn_string : string) (creds : option credentials) :
  str_contains "|" arn_string = false ->
  length (str_split ":" None arn_string) <= 6 ->
  exists arn,
    ARN_init arn_string creds = Ok arn /\
    ARN_repr arn =
    (arn_string ++
     String.concat ""
       (repeat ":*" (6 - length (str_split ":" None arn_string))))%string.
Proof.
  intros Hbar Hlen.
  destruct (ARN_init_six_components E R arn_string creds Hbar Hlen)
    as (arn & Hinit & _ & Hpat).
  exists arn. split; [exact Hinit|].
  unfold ARN_repr. rewrite Hpat.
  rewrite str_join_padded by apply str_split_not_nil.
  rewrite (str_join_split ":" None arn_string). reflexivity.
Qed.

Lemma ARN_repr_pads_missing_tokens_witness :
  exists arn,
    @ARN_init Demo.external Demo.registry "arn:aws:elb" None = Ok arn /\
    ARN_repr arn = "arn:aws:elb:*:*:*".
Proof.
  apply (ARN_repr_pads_missing_tokens Demo.external Demo.registry
           "arn:aws:elb" None); [reflexivity | simpl; lia].
Defined.

Section Filter.

Context {E : External} {R : Registry E}.

(** Construction from a string of at most six tokens without [|], with the
    components written out. *)
Lemma ARN_init_explicit (arn_string : string) (creds : option credentials) :
  str_contains "|" arn_string = false ->
  length (str_split ":" None arn_string) <= 6 ->
  ARN_init arn_string creds =
  Ok {| query := None;
        _components :=
          map (fun kn => built (fst kn) (snd kn))
            (combine ComponentClasses
               (str_split ":" None arn_string ++
                repeat "*" (6 - length (str_split ":" None arn_string))));
        aws_creds := creds |}.
Proof.
  intros Hbar Hlen. rewrite (ARN_init_no_filter _ _ Hbar).
  rewrite str_split_limit_slack by lia. rewrite components_of_tokens.
  apply Nat.leb_le in Hlen. rewrite Hlen. reflexivity.
Qed.

Lemma repeat_Forall {A : Type} (P : A -> Prop) (x : A) (n : nat) :
  P x -> Forall P (repeat x n).
Proof. intros H. induction n; simpl; constructor; assumption. Qed.

End Filter.

(** X3. A string [a|q] with no other [|] builds the locator of [a] with
    the filter compiled from [q]; the filter is compiled first, so its
    error comes before any error of the components. *)
Theorem ARN_init_with_filter (E : External) (R : Registry E)
  (a q : string) (creds : option credentials) :
  str_contains "|" a = false ->
  str_contains "|" q = false ->
  ARN_init (a ++ "|" ++ q) creds =
  (compiled <- jmespath_compile q ;;
   arn <- ARN_init a creds ;;
   Ok {| query := Some compiled;
         _components := _components arn;
         aws_creds := creds |}).
Proof.
  intros Ha Hq. change (a ++ "|" ++ q)%string with (a ++ String "|" q)%string.
  rewrite (ARN_init_no_filter a creds Ha).
  unfold ARN_init, _build_components_from_string.
  rewrite str_contains_app. simpl str_contains. rewrite orb_true_r.
  rewrite (str_split_app_sep "|" a q Ha), (str_split_absent "|" None q Hq).
  destruct (jmespath_compile q) as [compiled|e]; [|reflexivity].
  cbn [bind fst snd].
  destruct (map_result _ _); reflexivity.
Qed.

Lemma ARN_init_with_filter_witness :
  @ARN_init Demo.external Demo.registry "arn:aws:elb|sqs" None =
  Ok (@Build_ARN Demo.external (Some "sqs")
        (_components (Demo.locator "arn:aws:elb")) None).
Proof.
  apply (eq_trans (ARN_init_with_filter Demo.external Demo.registry
                     "arn:aws:elb" "sqs" None eq_refl eq_refl)).
  reflexivity.
Defined.

(** X4. [__repr__] does not print the filter: the locator of [a|q] is
    printed as the locator of [a]. *)
Theorem ARN_repr_omits_filter (E : External) (R : Registry E)
  (a q : string) (creds : option credentials) (arn : ARN E) :
  str_contains "|" a = false ->
  str_contains "|" q = false ->
  ARN_init (a ++ "|" ++ q) creds = Ok arn ->
  exists arn0,
    ARN_init a creds = Ok arn0 /\ query arn0 = None /\
    query arn <> None /\ ARN_repr arn = ARN_repr arn0.
Proof.
  intros Ha Hq H.
  change (a ++ "|" ++ q)%string with (a ++ String "|" q)%string in H.
  pose proof (ARN_init_no_filter a creds Ha) as Hplain.
  unfold ARN_init, _build_components_from_string in H.
  rewrite str_contains_app in H. simpl str_contains in H.
  rewrite orb_true_r in H.
  rewrite (str_split_app_sep "|" a q Ha), (str_split_absent "|" None q Hq)
    in H.
  destruct (jmespath_compile q) as [compiled|e]; [|discriminate H].
  cbn [bind fst snd] in H.
  destruct (map_result _ _) as [components|e]; [|discriminate H].
  cbn in H. inversion H; subst arn. cbn in Hplain.
  eexists. split; [exact Hplain|]. repeat split. discriminate.
Qed.

Lemma ARN_repr_omits_filter_witness :
  exists arn0,
    @ARN_init Demo.external Demo.registry "arn:aws:elb" None = Ok arn0 /\
    ARN_repr
      (@Build_ARN Demo.external (Some "sqs")
         (_components (Demo.locator "arn:aws:elb")) None) = ARN_repr arn0.
Proof.
  destruct (ARN_repr_omits_filter Demo.external Demo.registry
              "arn:aws:elb" "sqs" None
              (@Build_ARN Demo.external (Some "sqs")
                 (_components (Demo.locator "arn:aws:elb")) None)
              eq_refl eq_refl eq_refl)
    as (arn0 & H0 & _ & _ & Hr).
  exists arn0. split; assumption.
Defined.

(** X5. A string with two [|] or more raises [ValueError] at construction:
    the split at [|] gives more than the two values that are unpacked. *)
Theorem ARN_init_two_filters (E : External) (R : Registry E)
  (a b c : string) (creds : option credentials) :
  ARN_init (a ++ "|" ++ b ++ "|" ++ c) creds = Raise ValueError.
Proof.
  change (a ++ "|" ++ b ++ "|" ++ c)%string
    with (a ++ String "|" (b ++ String "|" c))%string.
  unfold ARN_init, _build_components_from_string.
  rewrite str_contains_app. simpl str_contains. rewrite orb_true_r.
  pose proof (str_split_app_length "|" a (b ++ String "|" c)) as Hlen.
  rewrite (str_split_app_length "|" b c) in Hlen.
  pose proof (str_split_not_nil "|" None a) as Ha.
  pose proof (str_split_not_nil "|" None b) as Hb.
  pose proof (str_split_not_nil "|" None c) as Hc.
  destruct (str_split "|" None a) as [|a0 la]; [congruence|].
  destruct (str_split "|" None b) as [|b0 lb]; [congruence|].
  destruct (str_split "|" None c) as [|c0 lc]; [congruence|].
  destruct (str_split "|" None (a ++ String "|" (b ++ String "|" c)))
    as [|x [|y [|z l]]]; simpl in Hlen; try lia; reflexivity.
Qed.

(** X6. Printing a locator built from at most six tokens without [|] and
    building a locator from the result gives the same locator. *)
Theorem ARN_init_repr_same_locator (E : External) (R : Registry E)
  (arn_string : string) (creds : option credentials) (arn : ARN E) :
  str_contains "|" arn_string = false ->
  length (str_split ":" None arn_string) <= 6 ->
  ARN_init arn_string creds = Ok arn ->
  ARN_init (ARN_repr arn) creds = Ok arn.
Proof.
  intros Hbar Hlen Hinit.
  pose proof (ARN_init_explicit arn_string creds Hbar Hlen) as Hex.
  assert (Harn :
    arn =
    {| query := None;
       _components :=
         map (fun kn => built (fst kn) (snd kn))
           (combine ComponentClasses
              (str_split ":" None arn_string ++
               repeat "*" (6 - length (str_split ":" None arn_string))));
       aws_creds := creds |}) by congruence.
  subst arn. clear Hinit Hex.
  pose proof (str_split_not_nil ":" None arn_string) as Hne.
  pose proof (str_split_tokens_free ":" arn_string) as Hcolon.
  pose proof (str_split_tokens_without "|" ":" None arn_string Hbar) as Hbars.
  set (tokens := str_split ":" None arn_string) in *.
  set (pats := tokens ++ repeat "*" (6 - length tokens)).
  assert (Hlen6 : length pats = 6).
  { unfold pats. rewrite length_app, repeat_length. lia. }
  assert (Hpne : pats <> []) by (destruct pats; [discriminate | discriminate]).
  assert (Hpc : Forall (fun t => str_contains ":" t = false) pats).
  { unfold pats. apply Forall_app. split; [exact Hcolon|].
    apply repeat_Forall. reflexivity. }
  assert (Hpb : Forall (fun t => str_contains "|" t = false) pats).
  { unfold pats. apply Forall_app. split; [exact Hbars|].
    apply repeat_Forall. reflexivity. }
  assert (Hrepr :
    ARN_repr
      {| query := None;
         _components :=
           map (fun kn => built (fst kn) (snd kn))
             (combine ComponentClasses pats);
         aws_creds := creds |} = str_join ":" pats).
  { unfold ARN_repr. cbn [_components]. f_equal.
    destruct pats as [|p0 [|p1 [|p2 [|p3 [|p4 [|p5 [|p6 l]]]]]]];
      try discriminate Hlen6. reflexivity. }
  rewrite Hrepr.
  rewrite ARN_init_explicit.
  - rewrite (str_split_join ":" pats Hpne Hpc), Hlen6. cbn [Nat.sub repeat].
    rewrite app_nil_r. reflexivity.
  - apply (str_contains_join "|" ":" pats); [reflexivity | exact Hpb].
  - rewrite (str_split_join ":" pats Hpne Hpc). lia.
Qed.

Lemma ARN_init_repr_same_locator_witness :
  @ARN_init Demo.external Demo.registry
    (ARN_repr (Demo.locator "arn:aws:elb")) None
  = Ok (Demo.locator "arn:aws:elb").
Proof.
  apply (ARN_init_repr_same_locator Demo.external Demo.registry
           "arn:aws:elb" None (Demo.locator "arn:aws:elb"));
    [reflexivity | simpl; lia | reflexivity].
Defined.

(** ** Resource patterns *)

Lemma cut_spec (sep : ascii) (s : string) :
  match cut sep s with
  | Some (a, b) => s = (a ++ String sep b)%string /\ str_contains sep a = false
  | None => str_contains sep s = false
  end.
Proof.
  induction s as [|c s IH]; simpl.
  - reflexivity.
  - destruct (Ascii.eqb c sep) eqn:Hc.
    + apply Ascii.eqb_eq in Hc. subst c. split; reflexivity.
    + destruct (cut sep s) as [[a b]|].
      * destruct IH as [Hs Ha]. simpl. rewrite Hc. split; [|exact Ha].
        rewrite Hs at 1. reflexivity.
      * exact IH.
Qed.

(** X7. [_split_resource] never raises and loses nothing: with an id, the
    pattern is the type, the separator and the id, the type is free of
    [/], and of [:] too when the separator is [:]; with no id, the
    pattern is the type and has neither separator. *)
Theorem _split_resource_loses_nothing (resource : string) :
  exists resource_type resource_id,
    _split_resource resource = Ok (resource_type, resource_id) /\
    match resource_id with
    | Some id =>
        (resource = (resource_type ++ "/" ++ id)%string /\
         str_contains "/" resource_type = false)
        \/ (resource = (resource_type ++ ":" ++ id)%string /\
            str_contains "/" resource = false /\
            str_contains ":" resource_type = false)
    | None =>
        resource = resource_type /\
        str_contains "/" resource = false /\
        str_contains ":" resource = false
    end.
Proof.
  rewrite _split_resource_type_and_id. unfold type_and_id.
  pose proof (cut_spec "/" resource) as Hslash.
  destruct (cut "/" resource) as [[t i]|].
  - exists t, (Some i). split; [reflexivity|]. left. exact Hslash.
  - pose proof (cut_spec ":" resource) as Hcolon.
    destruct (cut ":" resource) as [[t i]|].
    + exists t, (Some i). split; [reflexivity|]. right.
      destruct Hcolon as [Hs Ht]. repeat split; assumption.
    + exists resource, None. repeat split; assumption.
Qed.

(** ** Candidates and matches *)

Section Candidates.

Context {E : External} {R : Registry E}.

(** What [matches] returns is what some regular expression keeps of what
    [choices] returns. *)
Lemma matches_filter (self : ARNComponent) (arn : ARN E)
  (context : option (list string)) (ms : list string) :
  matches self arn context = Ok ms ->
  exists r cs,
    choices self arn context = Ok cs /\ ms = filter (re_search r) cs.
Proof.
  unfold matches, component_match, Resource_match.
  assert (Hbase : forall p,
    ARNComponent_match self arn p context = Ok ms ->
    exists r cs,
      choices self arn context = Ok cs /\ ms = filter (re_search r) cs).
  { intros p. unfold ARNComponent_match.
    destruct (re_compile _) as [r|e]; [|discriminate].
    cbn [bind]. destruct (choices self arn context) as [cs|e];
      [|discriminate].
    cbn [bind]. intros H. inversion H. exists r, cs.
    split; [reflexivity|]. rewrite match_loop_filter. reflexivity. }
  destruct (cls self); try apply Hbase.
  rewrite _split_resource_type_and_id. cbn [bind]. apply Hbase.
Qed.


Lemma region_table_not_empty (k : dict_key) :
  dict_get _service_region_map k _all_region_names <> [].
Proof.
  destruct k as [s|c]; [|discriminate].
  unfold dict_get, _service_region_map. cbn [find fst snd].
  repeat (destruct (String.eqb _ s); [discriminate|]). discriminate.
Qed.

Lemma prefix_empty (s : string) : String.prefix "" s = true.
Proof. destruct s; reflexivity. Qed.

Lemma prefix_app (p q s : string) :
  String.prefix (p ++ q) s = true -> String.prefix p s = true.
Proof.
  revert s. induction p as [|c p IH]; intros s H.
  - apply prefix_empty.
  - destruct s as [|d s]; simpl in *; [discriminate|].
    destruct (ascii_dec c d); [apply IH; exact H | discriminate].
Qed.

Lemma filter_narrow {A : Type} (f g : A -> bool) (l : list A) :
  (forall x, f x = true -> g x = true) ->
  filter f (filter g l) = filter f l.
Proof.
  intros Hfg. induction l as [|x l IH]; simpl; [reflexivity|].
  destruct (g x) eqn:Hg; simpl.
  - rewrite IH. reflexivity.
  - destruct (f x) eqn:Hf; [|exact IH].
    rewrite (Hfg x Hf) in Hg. discriminate.
Qed.

End Candidates.

(** X8. [matches] never returns a value that [choices] does not return,
    never more often than [choices] does, and keeps no duplicates that
    [choices] does not have; so it is for every class, [Resource] with its
    own [match] included. *)
Theorem matches_within_choices (E : External) (R : Registry E)
  (self : ARNComponent) (arn : ARN E) (context : option (list string))
  (ms : list string) :
  matches self arn context = Ok ms ->
  exists cs,
    choices self arn context = Ok cs /\
    incl ms cs /\
    length ms <= length cs /\
    (NoDup cs -> NoDup ms).
Proof.
  intros Hm.
  destruct (matches_filter self arn context ms Hm) as (r & cs & Hc & Hms).
  exists cs. subst ms. repeat split.
  - exact Hc.
  - apply incl_filter.
  - apply filter_length_le.
  - apply NoDup_filter.
Qed.

Lemma matches_within_choices_witness :
  exists cs,
    @choices Demo.external Demo.registry
      (Demo.component "arn:aws:e" 2) (Demo.locator "arn:aws:e") None = Ok cs
    /\ incl ["ec2"; "elb"] cs.
Proof.
  destruct (matches_within_choices Demo.external Demo.registry
              (Demo.component "arn:aws:e" 2) (Demo.locator "arn:aws:e")
              None ["ec2"; "elb"] eq_refl) as (cs & Hc & Hin & _).
  exists cs. split; assumption.
Defined.

(** X9. A context that is not empty but too short raises [IndexError]:
    [Service.choices] reads index 1, [Region.choices] and
    [Resource.choices] read index 2.  An empty context is no context: all
    classes answer it as they answer [None]. *)
Theorem choices_short_context (E : External) (R : Registry E)
  (self : ARNComponent) (arn : ARN E) (context : list string) :
  (context <> [] ->
   (cls self = Service /\ length context < 2) \/
   ((cls self = Region \/ cls self = Resource) /\ length context < 3) ->
   choices self arn (Some context) = Raise IndexError)
  /\ choices self arn (Some []) = choices self arn None.
Proof.
  split; [|reflexivity].
  intros Hne H. unfold choices.
  destruct context as [|c0 context]; [congruence|].
  destruct H as [[Hcls Hlen] | [[Hcls | Hcls] Hlen]]; rewrite Hcls.
  - destruct context; [reflexivity | simpl in Hlen; lia].
  - destruct context as [|c1 [|c2 context]];
      [reflexivity | reflexivity | simpl in Hlen; lia].
  - destruct context as [|c1 [|c2 context]];
      [reflexivity | reflexivity | simpl in Hlen; lia].
Qed.

Lemma choices_short_context_witness :
  @choices Demo.external Demo.registry
    (Demo.component "arn:aws:elb" 3) (Demo.locator "arn:aws:elb")
    (Some ["arn"; "aws"]) = Raise IndexError.
Proof.
  apply (proj1 (choices_short_context Demo.external Demo.registry
                  (Demo.component "arn:aws:elb" 3)
                  (Demo.locator "arn:aws:elb") ["arn"; "aws"])).
  - discriminate.
  - right. split; [left; reflexivity | simpl; lia].
Defined.

(** X10. The candidate list of a scheme, provider, region or resource
    component is never empty; so under the pattern [*] (where [.*] finds a
    match in every string) such a component always has a match, namely
    every candidate. *)
Theorem choices_never_empty (E : External) (R : Registry E)
  (self : ARNComponent) (arn : ARN E) (context : option (list string))
  (cs : list string) :
  cls self <> Service -> cls self <> Account ->
  choices self arn context = Ok cs ->
  cs <> []
  /\ (dotstar_matches_all -> pattern self = "*" ->
      matches self arn context = Ok cs).
Proof.
  intros Hs Ha Hc. split.
  - unfold choices in Hc. destruct (cls self); try congruence.
    + inversion Hc. discriminate.
    + inversion Hc. discriminate.
    + unfold Region_choices in Hc.
      destruct (if truthy context
                then s <- context_at context 2;; Ok (KStr s)
                else c <- service arn;; Ok (KObj c)) as [k|e];
        [|discriminate Hc].
      cbn [bind] in Hc. inversion Hc. apply region_table_not_empty.
    + unfold Resource_choices in Hc.
      destruct (if truthy context then context_at context 2
                else c <- service arn;; Ok (pattern c)) as [s|e];
        [|discriminate Hc].
      cbn [bind] in Hc. destruct (provider arn) as [p|e]; [|discriminate Hc].
      cbn [bind] in Hc. inversion Hc.
      destruct (all_types (pattern p) s); discriminate.
  - intros (r & Hr & Hall) Hp.
    assert (Hbase : ARNComponent_match self arn "*" context = Ok cs).
    { unfold ARNComponent_match. simpl. rewrite Hr. cbn [bind].
      rewrite Hc. cbn [bind]. rewrite match_loop_filter.
      rewrite (filter_all _ _ Hall). reflexivity. }
    unfold matches, component_match, Resource_match. rewrite Hp.
    destruct (cls self); exact Hbase.
Qed.

Lemma choices_never_empty_witness :
  _all_region_names <> []
  /\ @matches Demo.external Demo.registry
       (Demo.component "arn:aws:elb" 3) (Demo.locator "arn:aws:elb") None
     = Ok _all_region_names.
Proof.
  pose proof (choices_never_empty Demo.external Demo.registry
                (Demo.component "arn:aws:elb" 3) (Demo.locator "arn:aws:elb")
                None _all_region_names) as H.
  destruct H as [Hne Hm]; [discriminate | discriminate | reflexivity |].
  split; [exact Hne|]. apply Hm; [exact Re_dotstar_matches_all | reflexivity].
Defined.

(** X11. [complete] with the default prefix [''] returns every candidate;
    and a longer prefix narrows: the completions of [p q] are those
    completions of [p] that start with [p q], in the same order. *)
Theorem complete_default_and_narrowing (E : External) (R : Registry E)
  (self : ARNComponent) (arn : ARN E) (context : option (list string)) :
  complete self arn "" context = choices self arn context
  /\ (forall p q completions,
      complete self arn p context = Ok completions ->
      complete self arn (p ++ q) context =
      Ok (filter (fun c => String.prefix (p ++ q) c) completions)).
Proof.
  unfold complete. split.
  - destruct (choices self arn context) as [cs|e]; [|reflexivity].
    cbn [bind]. rewrite filter_all; [reflexivity | apply prefix_empty].
  - intros p q completions.
    destruct (choices self arn context) as [cs|e]; [|discriminate].
    cbn [bind]. intros H. inversion H. f_equal. symmetry.
    apply filter_narrow. intros c. apply prefix_app.
Qed.

Lemma complete_default_and_narrowing_witness :
  @complete Demo.external Demo.registry
    (Demo.component "arn:aws:elb" 3) (Demo.locator "arn:aws:elb")
    "us-west" None = Ok ["us-west-1"; "us-west-2"].
Proof.
  apply (eq_trans
    (proj2 (complete_default_and_narrowing Demo.external Demo.registry
              (Demo.component "arn:aws:elb" 3) (Demo.locator "arn:aws:elb")
              None)
       "us-" "west" ["us-east-1"; "us-west-1"; "us-west-2"] eq_refl)).
  reflexivity.
Defined.

(** ** Enumeration *)

Section Resources.

Context {E : External} {R : Registry E}.

(** The loop of [Resource.enumerate] when every type is resolved and
    enumerated: the records found are appended in the order of the
    types. *)
Lemma Resource_loop_concat (arn : ARN E)
  (provider0 service_name region0 account0 : string)
  (resource_id : option string) (creds : option credentials)
  (types : list string) (founds : list (list ResourceRecord)) :
  Forall2
    (fun t found =>
       (c <- find_resource_class (str_join "." [provider0; service_name; t]) ;;
        cls_enumerate c arn region0 account0 resource_id creds) = Ok found)
    types founds ->
  forall resources,
    Resource_loop arn provider0 service_name region0 account0 resource_id
      creds types resources = Ok (resources ++ concat founds).
Proof.
  induction 1 as [|t found types founds Ht _ IH]; intros resources.
  - simpl. rewrite app_nil_r. reflexivity.
  - cbn [Resource_loop concat].
    destruct (find_resource_class _) as [c|e]; [|discriminate Ht].
    cbn [bind] in *. rewrite Ht. cbn [bind]. rewrite IH, app_assoc.
    reflexivity.
Qed.

(** The loop stops at the first type whose class raises in [enumerate]. *)
Lemma Resource_loop_backend_failure (arn : ARN E)
  (provider0 service_name region0 account0 : string)
  (resource_id : option string) (creds : option credentials)
  (before : list string) (t : string) (after : list string)
  (c : resource_cls) (e : exn) :
  (forall t', In t' before ->
     exists c' found,
       find_resource_class (str_join "." [provider0; service_name; t'])
       = Ok c'
       /\ cls_enumerate c' arn region0 account0 resource_id creds
          = Ok found) ->
  find_resource_class (str_join "." [provider0; service_name; t]) = Ok c ->
  cls_enumerate c arn region0 account0 resource_id creds = Raise e ->
  forall resources,
    Resource_loop arn provider0 service_name region0 account0 resource_id
      creds (before ++ t :: after) resources = Raise e.
Proof.
  intros Hbefore Hc He.
  induction before as [|t' before IH]; intros resources.
  - cbn [app Resource_loop]. rewrite Hc. cbn [bind]. rewrite He. reflexivity.
  - destruct (Hbefore t' (or_introl eq_refl)) as (c' & found & Hc' & Hf).
    cbn [app Resource_loop]. rewrite Hc'. cbn [bind]. rewrite Hf.
    cbn [bind]. apply IH. intros t'' Hin. apply Hbefore. right. exact Hin.
Qed.



Lemma push_recurse_pop_first_error (next_level : list string -> generator)
  (ms : list string) (context : list string) :
  (forall c, restores (next_level c) c) ->
  gen_error (push_recurse_pop next_level ms context) =
  first_error (fun m => next_level (context ++ [m])) ms.
Proof.
  intros Hnext. induction ms as [|m ms IH].
  - reflexivity.
  - rewrite push_recurse_pop_error by exact Hnext.
    cbn [first_error]. rewrite IH. reflexivity.
Qed.

End Resources.

(** X12. For a service without registered resource types the candidate
    list is the one entry [*]; under the pattern [*] (where [.*] finds a
    match in every string) [Resource.enumerate] then asks the registry
    for the class named [provider.service.*] and returns what that class
    enumerates, or the error of either call.  The types are listed for
    the provider component's pattern, the class is looked up for the
    provider on the context. *)
Theorem Resource_enumerate_unknown_service (E : External) (R : Registry E)
  (self provider_component : ARNComponent) (arn : ARN E)
  (scheme0 provider0 service_name region0 account0 : string)
  (creds : option credentials) :
  dotstar_matches_all ->
  cls self = Resource -> pattern self = "*" ->
  provider arn = Ok provider_component ->
  all_types (pattern provider_component) service_name = [] ->
  choices self arn
    (Some [scheme0; provider0; service_name; region0; account0]) = Ok ["*"]
  /\ Resource_enumerate self arn
       [scheme0; provider0; service_name; region0; account0] creds =
     (c <- find_resource_class
             (str_join "." [provider0; service_name; "*"]) ;;
      cls_enumerate c arn region0 account0 None creds).
Proof.
  intros (r & Hr & Hall) Hcls Hpat Hprov Htypes.
  assert (Hch : choices self arn
                  (Some [scheme0; provider0; service_name; region0; account0])
                = Ok ["*"]).
  { unfold choices, Resource_choices. rewrite Hcls. cbn. rewrite Hprov.
    cbn [bind]. rewrite Htypes. reflexivity. }
  split; [exact Hch|].
  unfold Resource_enumerate. rewrite Hpat.
  change (_split_resource "*") with (@Ok (string * option string) ("*", None)).
  cbn [bind snd].
  unfold matches, component_match, Resource_match. rewrite Hcls, Hpat.
  change (_split_resource "*") with (@Ok (string * option string) ("*", None)).
  cbn [bind fst]. unfold ARNComponent_match. simpl String.eqb. cbv iota.
  rewrite Hr. cbn [bind]. rewrite Hch. cbn [bind].
  cbn [match_loop]. rewrite Hall. cbn [app Resource_loop].
  destruct (find_resource_class _) as [c|e]; [|reflexivity].
  cbn [bind]. destruct (cls_enumerate _ _ _ _ _ _); reflexivity.
Qed.

(** The provider [gcp] has no services and no types: the class asked for
    is [gcp.storage.*], which the registry does not have. *)
Lemma Resource_enumerate_unknown_service_witness :
  @Resource_enumerate Demo.external Demo.registry
    (Demo.component "arn:gcp:storage" 5) (Demo.locator "arn:gcp:storage")
    ["arn"; "gcp"; "storage"; "us-east-1"; "123456789012"] None
  = Raise (OtherError "KeyError").
Proof.
  apply (eq_trans
    (proj2 (Resource_enumerate_unknown_service Demo.external Demo.registry
              (Demo.component "arn:gcp:storage" 5)
              (Demo.component "arn:gcp:storage" 1)
              (Demo.locator "arn:gcp:storage")
              "arn" "gcp" "storage" "us-east-1" "123456789012" None
              Re_dotstar_matches_all eq_refl eq_refl eq_refl eq_refl))).
  reflexivity.
Defined.

(** X13. When every matching resource type is resolved and enumerated,
    [Resource.enumerate] returns the records of the types, one type after
    the other in the order of the matches. *)
Theorem Resource_enumerate_concatenates (E : External) (R : Registry E)
  (self : ARNComponent) (arn : ARN E)
  (scheme0 provider0 service_name region0 account0 : string)
  (creds : option credentials)
  (types : list string) (founds : list (list ResourceRecord)) :
  matches self arn
    (Some [scheme0; provider0; service_name; region0; account0]) = Ok types ->
  Forall2
    (fun t found =>
       (c <- find_resource_class (str_join "." [provider0; service_name; t]) ;;
        cls_enumerate c arn region0 account0
          (snd (type_and_id (pattern self))) creds) = Ok found)
    types founds ->
  Resource_enumerate self arn
    [scheme0; provider0; service_name; region0; account0] creds
  = Ok (concat founds).
Proof.
  intros Hm Hall. unfold Resource_enumerate.
  rewrite _split_resource_type_and_id. cbn [bind]. rewrite Hm. cbn [bind].
  rewrite (Resource_loop_concat _ _ _ _ _ _ _ _ _ Hall). reflexivity.
Qed.

(** The three resource types of [ec2]: the instance, then the two
    volumes, then the snapshot. *)
Lemma Resource_enumerate_concatenates_witness :
  @Resource_enumerate Demo.external Demo.registry_wide
    (Demo.component "arn:aws:ec2" 5) (Demo.locator "arn:aws:ec2")
    ["arn"; "aws"; "ec2"; "us-east-1"; "123456789012"] None
  = Ok ["Instance:us-east-1:123456789012:i-1";
        "Volume:us-east-1:123456789012:vol-1";
        "Volume:us-east-1:123456789012:vol-2";
        "Snapshot:us-east-1:123456789012:snap-1"].
Proof.
  apply (Resource_enumerate_concatenates Demo.external Demo.registry_wide
           (Demo.component "arn:aws:ec2" 5) (Demo.locator "arn:aws:ec2")
           "arn" "aws" "ec2" "us-east-1" "123456789012" None
           ["instance"; "volume"; "snapshot"]
           [["Instance:us-east-1:123456789012:i-1"];
            ["Volume:us-east-1:123456789012:vol-1";
             "Volume:us-east-1:123456789012:vol-2"];
            ["Snapshot:us-east-1:123456789012:snap-1"]]).
  - reflexivity.
  - repeat constructor.
Defined.

(** X14. When the class of a matching resource type is resolved but its
    [enumerate] raises, and the types matched before it were enumerated,
    [Resource.enumerate] raises that error: the records of the earlier
    types are not returned and the later types are not reached. *)
Theorem Resource_enumerate_backend_failure (E : External) (R : Registry E)
  (self : ARNComponent) (arn : ARN E)
  (scheme0 provider0 service_name region0 account0 : string)
  (creds : option credentials)
  (before : list string) (t : string) (after : list string)
  (c : resource_cls) (e : exn) :
  matches self arn
    (Some [scheme0; provider0; service_name; region0; account0])
  = Ok (before ++ t :: after) ->
  (forall t', In t' before ->
     exists c' found,
       find_resource_class (str_join "." [provider0; service_name; t'])
       = Ok c'
       /\ cls_enumerate c' arn region0 account0
            (snd (type_and_id (pattern self))) creds = Ok found) ->
  find_resource_class (str_join "." [provider0; service_name; t]) = Ok c ->
  cls_enumerate c arn region0 account0
    (snd (type_and_id (pattern self))) creds = Raise e ->
  Resource_enumerate self arn
    [scheme0; provider0; service_name; region0; account0] creds = Raise e.
Proof.
  intros Hm Hbefore Hc He. unfold Resource_enumerate.
  rewrite _split_resource_type_and_id. cbn [bind]. rewrite Hm. cbn [bind].
  apply (Resource_loop_backend_failure _ _ _ _ _ _ _ _ _ _ c);
    assumption.
Qed.

(** The three resource types of [ec2] while the volumes cannot be
    reached: the instance was enumerated, the error of the volumes is
    raised, the instance is not returned and the snapshots are not
    reached. *)
Lemma Resource_enumerate_backend_failure_witness :
  @matches Demo.external Demo.registry_offline
    (Demo.component "arn:aws:ec2" 5) (Demo.locator "arn:aws:ec2")
    (Some ["arn"; "aws"; "ec2"; "us-east-1"; "123456789012"])
  = Ok (["instance"] ++ "volume" :: ["snapshot"])
  /\ (c <- Demo.find_class_wide "aws.ec2.instance" ;;
      Demo.enumerate_class_offline c (Demo.locator "arn:aws:ec2")
        "us-east-1" "123456789012" None None)
     = Ok ["Instance:us-east-1:123456789012:i-1"]
  /\ @Resource_enumerate Demo.external Demo.registry_offline
       (Demo.component "arn:aws:ec2" 5) (Demo.locator "arn:aws:ec2")
       ["arn"; "aws"; "ec2"; "us-east-1"; "123456789012"] None
     = Raise (OtherError "EndpointConnectionError").
Proof.
  split; [reflexivity | split; [reflexivity|]].
  apply (Resource_enumerate_backend_failure
           Demo.external Demo.registry_offline
           (Demo.component "arn:aws:ec2" 5) (Demo.locator "arn:aws:ec2")
           "arn" "aws" "ec2" "us-east-1" "123456789012" None
           ["instance"] "volume" ["snapshot"] "Volume"
           (OtherError "EndpointConnectionError")).
  - reflexivity.
  - intros t' [Ht | []]. subst t'.
    exists "Instance", ["Instance:us-east-1:123456789012:i-1"].
    split; reflexivity.
  - reflexivity.
  - reflexivity.
Defined.

(** X15. A generator level ends with the error of the first branch, in
    the order of its matches, that an exception leaves, and returns when
    there is none: the branches after that one are not run. *)
Theorem enumerate_first_error (E : External) (R : Registry E)
  (self : ARNComponent) (arn : ARN E) (context : list string)
  (creds : option credentials) (ms : list string) :
  matches self arn (Some context) = Ok ms ->
  gen_error (Scheme_enumerate self arn context creds) =
  first_error
    (fun m =>
       match provider arn with
       | Raise e => Throw e (context ++ [m])
       | Ok next => Provider_enumerate next arn (context ++ [m]) creds
       end) ms
  /\ gen_error (Provider_enumerate self arn context creds) =
     first_error
       (fun m =>
          match service arn with
          | Raise e => Throw e (context ++ [m])
          | Ok next => Service_enumerate next arn (context ++ [m]) creds
          end) ms
  /\ gen_error (Service_enumerate self arn context creds) =
     first_error
       (fun m =>
          match region arn with
          | Raise e => Throw e (context ++ [m])
          | Ok next => Region_enumerate next arn (context ++ [m]) creds
          end) ms
  /\ gen_error (Region_enumerate self arn context creds) =
     first_error
       (fun m =>
          match account arn with
          | Raise e => Throw e (context ++ [m])
          | Ok next => Account_enumerate next arn (context ++ [m]) creds
          end) ms
  /\ gen_error (Account_enumerate self arn context creds) =
     first_error
       (fun m =>
          match resource arn with
          | Raise e => Throw e (context ++ [m])
          | Ok next =>
              match Resource_enumerate next arn (context ++ [m]) creds with
              | Raise e => Throw e (context ++ [m])
              | Ok resources => yield_each resources (context ++ [m])
              end
          end) ms.
Proof.
  intros Hm.
  unfold Scheme_enumerate, Provider_enumerate, Service_enumerate,
    Region_enumerate, Account_enumerate.
  rewrite Hm.
  repeat split;
    (rewrite push_recurse_pop_first_error; [reflexivity|]).
  - next_level_restores.
  - next_level_restores.
  - next_level_restores.
  - next_level_restores.
  - intros c. unfold restores.
    destruct (resource arn) as [next|e]; [|exact I].
    destruct (Resource_enumerate next arn c creds); [|exact I].
    rewrite yield_each_return. reflexivity.
Qed.

(** Every service matches [...]: the records of [ec2] and [elb] are
    produced, then the lookup error under [sns] ends the traversal. *)
Lemma enumerate_first_error_witness :
  gen_error
    (@Service_enumerate Demo.external Demo.registry
       (Demo.component "arn:aws:...:us-east-1" 2)
       (Demo.locator "arn:aws:...:us-east-1") ["arn"; "aws"] None)
  = Some (OtherError "KeyError")
  /\ gen_items
       (@Service_enumerate Demo.external Demo.registry
          (Demo.component "arn:aws:...:us-east-1" 2)
          (Demo.locator "arn:aws:...:us-east-1") ["arn"; "aws"] None)
     = ["Instance:us-east-1:123456789012:i-1";
        "LoadBalancer:us-east-1:123456789012:lb-1";
        "LoadBalancer:us-east-1:123456789012:lb-2"].
Proof.
  split; [|reflexivity].
  apply (eq_trans
    (proj1 (proj2 (proj2
       (enumerate_first_error Demo.external Demo.registry
          (Demo.component "arn:aws:...:us-east-1" 2)
          (Demo.locator "arn:aws:...:us-east-1") ["arn"; "aws"] None
          ["ec2"; "elb"; "sns"] eq_refl))))).
  reflexivity.
Defined.


